(** * Briefing aggregation and fault-tolerant dispatch: a shallow embedding

    The TypeScript sources embedded here are
    - the notifier [lib/server/notifier] (sendSlack, sendEmail,
      normaliseRecipients),
    - the marine index module beside [lib/server/vessel-data]
      (computeIoiFromMarine, deriveVoyageIoi),
    - the report route [app/api/report/route] (GET and its helpers),
    - the scheduler script (readLock, writeLock, triggerReport).

    Conventions.  A JavaScript string is the list of bytes of its UTF-8
    encoding (Rocq's [string]).  A JavaScript number is an IEEE-754 binary64
    value (Rocq's primitive [float]); integers that the code only ever
    produces and consumes as integers (HTTP status codes, epoch
    milliseconds) are [N] and [Z].  [T | undefined] is [option T].  The
    network, the clock and the lock file are explicit state: every call of
    [fetch] is appended to a log, so that "no network call" and "a single
    POST" are statements about that log.  What a [catch] clause receives is
    a value of its own type, and so is an exception that the route's handler
    lets escape. *)

From Stdlib Require Import ZArith NArith QArith Qround List String Ascii Bool Lia.
From Stdlib Require Import Floats DecimalString.
From ExtLib Require Import Structures.Monad Structures.MonadState Data.Monads.StateMonad.
Import ListNotations.
Import MonadNotation.

Local Open Scope list_scope.
Local Open Scope string_scope.
Local Open Scope monad_scope.

(** ** JavaScript strings *)

Module JsString.

Definition bytes (s : string) : list N := map N_of_ascii (list_ascii_of_string s).
Definition of_bytes (l : list N) : string := string_of_list_ascii (map ascii_of_N l).

Definition LF : string := String (ascii_of_N 10) "".

(** White space and line terminators of one byte: TAB, LF, VT, FF, CR, SP. *)
Definition ws1 (a : N) : bool :=
  ((9 <=? a) && (a <=? 13) || (a =? 32))%N.

(** Of two bytes: U+00A0. *)
Definition ws2 (a b : N) : bool :=
  ((a =? 194) && (b =? 160))%N.

(** Of three bytes: U+1680, U+2000..U+200A, U+2028, U+2029, U+202F, U+205F,
    U+3000, U+FEFF. *)
Definition ws3 (a b c : N) : bool :=
  ((a =? 225) && (b =? 154) && (c =? 128)
   || (a =? 226) && (b =? 128)
      && ((128 <=? c) && (c <=? 138) || (c =? 168) || (c =? 169) || (c =? 175))
   || (a =? 226) && (b =? 129) && (c =? 159)
   || (a =? 227) && (b =? 128) && (c =? 128)
   || (a =? 239) && (b =? 187) && (c =? 191))%N.

(** Drops the white space at the head of [l].  With [back = true] the list
    is read back to front (it is a reversed string), so the bytes of a
    character arrive last byte first. *)
Fixpoint dropSpace (back : bool) (l : list N) : list N :=
  match l with
  | [] => []
  | a :: l1 =>
      if ws1 a then dropSpace back l1
      else
        match l1 with
        | [] => l
        | b :: l2 =>
            if (if back then ws2 b a else ws2 a b) then dropSpace back l2
            else
              match l2 with
              | [] => l
              | c :: l3 =>
                  if (if back then ws3 c b a else ws3 a b c)
                  then dropSpace back l3
                  else l
              end
        end
  end.

(** [String.prototype.trim]. *)
Definition trim (s : string) : string :=
  of_bytes (rev (dropSpace true (rev (dropSpace false (bytes s))))).

(** [s.split(",")]: never empty, [""] for the empty string. *)
Fixpoint split_comma (s : string) : list string :=
  match s with
  | "" => [""]
  | String a s' =>
      if (N_of_ascii a =? 44)%N then "" :: split_comma s'
      else
        match split_comma s' with
        | [] => [String a ""]
        | h :: t => String a h :: t
        end
  end.

(** [list.join(sep)]. *)
Fixpoint join (sep : string) (l : list string) : string :=
  match l with
  | [] => ""
  | [s] => s
  | s :: l' => s ++ sep ++ join sep l'
  end.

(** [s.toUpperCase()] on the ASCII letters (the only ones it is used on). *)
Definition upper (a : ascii) : ascii :=
  let n := N_of_ascii a in
  if ((97 <=? n) && (n <=? 122))%N then ascii_of_N (n - 32) else a.

Fixpoint toUpperCase (s : string) : string :=
  match s with
  | "" => ""
  | String a s' => String (upper a) (toUpperCase s')
  end.

(** The decimal digits of a natural number, as a template literal prints an
    integer-valued number. *)
Definition decimal (n : N) : string := NilZero.string_of_uint (N.to_uint n).

(** Truthiness of a string: only [""] is falsy. *)
Definition truthy (s : string) : bool :=
  match s with "" => false | _ => true end.

(** The UTF-16 code units that a byte of the encoding stands for: a
    character of one, two or three bytes is one unit, a character of four
    bytes (first byte 240 and above) is a surrogate pair, and the bytes that
    continue a character (128 to 191) add nothing. *)
Definition units (b : N) : nat :=
  if (b <? 128)%N then 1
  else if (b <? 192)%N then 0
  else if (b <? 240)%N then 1
  else 2.

(** [s.length]. *)
Definition length (s : string) : nat :=
  fold_right (fun b n => (units b + n)%nat) 0%nat (bytes s).

End JsString.

(** [a ?? b] on a possibly-undefined value with a possibly-undefined default. *)
Definition nullish {A} (a b : option A) : option A :=
  match a with Some _ => a | None => b end.

(** [a ?? b] with a default that is always there. *)
Definition nullishOr {A} (a : option A) (b : A) : A :=
  match a with Some x => x | None => b end.

(** [!s] for a possibly-undefined string. *)
Definition missing (s : option string) : bool :=
  match s with Some v => negb (JsString.truthy v) | None => true end.

(** ** JSON values, requests and responses *)

Module Js.

#[warnings="-register-all"]
Inductive Json :=
| JUndefined
| JNull
| JBool (b : bool)
| JNum (x : float)
| JStr (s : string)
| JArr (l : list Json)
| JObj (fields : list (string * Json)).

(** The fields of an object are listed once each. *)
Fixpoint lookup (k : string) (fields : list (string * Json)) : Json :=
  match fields with
  | [] => JUndefined
  | (k', v) :: rest => if String.eqb k k' then v else lookup k rest
  end.

(** [j?.k]: undefined on null and undefined, the property otherwise.  Only
    objects have the properties that the code reads this way. *)
Definition prop (k : string) (j : Json) : Json :=
  match j with
  | JObj fields => lookup k fields
  | _ => JUndefined
  end.

(** [j ?? d]. *)
Definition orElse (j d : Json) : Json :=
  match j with
  | JUndefined | JNull => d
  | _ => j
  end.

(** Truthiness: undefined, null, false, 0, -0, NaN and the empty string are
    falsy. *)
Definition truthy (j : Json) : bool :=
  match j with
  | JUndefined | JNull => false
  | JBool b => b
  | JNum x => negb (PrimFloat.is_nan x || PrimFloat.is_zero x)
  | JStr s => JsString.truthy s
  | JArr _ | JObj _ => true
  end.

(** A length as a number. *)
Definition count (n : nat) : Json :=
  JNum (PrimFloat.of_uint63 (Uint63.of_Z (Z.of_nat n))).

(** [j?.[0]?.id]: the [id] of the first element of an array, of the
    property ["0"] of an object.  The first code unit of a string is a
    string, a number and a boolean have no element: none of them has an
    [id]. *)
Definition firstId (j : Json) : Json :=
  match j with
  | JArr (x :: _) => prop "id" x
  | JObj fields => prop "id" (lookup "0" fields)
  | _ => JUndefined
  end.

(** [j?.length]: the number of elements of an array, the number of code
    units of a string, the property of that name of an object. *)
Definition length (j : Json) : Json :=
  match j with
  | JArr l => count (List.length l)
  | JStr s => count (JsString.length s)
  | JObj fields => lookup "length" fields
  | _ => JUndefined
  end.

End Js.

Module Http.
Import Js.

Record Request := {
  url : string;
  method : string;
  headers : list (string * string);
  body : Json            (* the value handed to JSON.stringify *)
}.

(** What a [catch] clause receives: an [Error] with its message, or some
    other thrown value. *)
Inductive Thrown :=
| ThrownError (message : string)
| ThrownOther.

Record Response := {
  status : N;
  json : Json + Thrown   (* what [response.json()] resolves or rejects with *)
}.

(** [response.ok]: the status is in the range 200-299. *)
Definition ok (r : Response) : bool :=
  ((200 <=? status r) && (status r <=? 299))%N.

Inductive FetchResult :=
| Resolved (r : Response)
| Rejected (e : Thrown).

(** A [fetch] implementation: its answer may depend on every request sent
    before. *)
Definition Fetch := list Request -> Request -> FetchResult.

(** The effect: the log of the requests sent so far. *)
Definition Net := state (list Request).

Definition call (f : Fetch) (req : Request) : Net FetchResult :=
  log <- get ;;
  put (log ++ [req])%list ;;
  ret (f log req).

(** [error instanceof Error ? error.message : fallback]. *)
Definition messageOf (e : Thrown) (fallback : string) : string :=
  match e with
  | ThrownError m => m
  | ThrownOther => fallback
  end.

End Http.

(** The environment variables the server reads. *)
Record ProcessEnv := {
  SLACK_WEBHOOK_URL : option string;
  RESEND_API_KEY : option string;
  REPORT_SENDER : option string;
  REPORT_RECIPIENTS : option string;
  REPORT_TIMEZONE : option string
}.

(** ** lib/server/notifier *)

Module Notifier.
Import Js Http.

Inductive NotifyChannel := slack | email.

Record NotifyResult := {
  channel : NotifyChannel;
  ok : bool;
  error : option string
}.

Record SlackOptions := {
  message : string;
  webhookUrl : option string;
  slackFetchImpl : option Fetch
}.

Record EmailOptions := {
  subject : string;
  text : string;
  to : option (list string);
  from : option string;
  apiKey : option string;
  emailFetchImpl : option Fetch
}.

(** The argument of [normaliseRecipients]: [string[] | string]. *)
Inductive Recipients :=
| AsList (l : list string)
| AsString (s : string).

Definition nonEmpty (s : string) : bool := JsString.truthy s.

Definition normaliseRecipients (recipients : option Recipients) : list string :=
  match recipients with
  | None => []
  | Some (AsString s) =>
      if JsString.truthy s
      then filter nonEmpty (map JsString.trim (JsString.split_comma s))
      else []
  | Some (AsList l) => filter nonEmpty (map JsString.trim l)
  end.

Section Senders.
Variable env : ProcessEnv.
Variable fetch : Fetch.

Definition failure (c : NotifyChannel) (e : string) : NotifyResult :=
  {| channel := c; ok := false; error := Some e |}.

Definition success (c : NotifyChannel) : NotifyResult :=
  {| channel := c; ok := true; error := None |}.

Definition slackRequest (webhook : string) (options : SlackOptions) : Request :=
  {| url := webhook;
     method := "POST";
     headers := [("Content-Type", "application/json")];
     body := JObj [("text", JStr (message options))] |}.

Definition sendSlack (options : SlackOptions) : Net NotifyResult :=
  let fetchImpl := nullishOr (slackFetchImpl options) fetch in
  let webhook := nullish (webhookUrl options) (SLACK_WEBHOOK_URL env) in
  match webhook with
  | Some hook =>
      if JsString.truthy hook then
        r <- call fetchImpl (slackRequest hook options) ;;
        match r with
        | Resolved response =>
            if negb (Http.ok response)
            then ret (failure slack
                        ("Slack webhook responded " ++ JsString.decimal (status response)))
            else ret (success slack)
        | Rejected e => ret (failure slack (messageOf e "Slack webhook error"))
        end
      else ret (failure slack "Missing Slack webhook URL")
  | None => ret (failure slack "Missing Slack webhook URL")
  end.

(** [options.to ?? process.env.REPORT_RECIPIENTS?.split(",")]. *)
Definition recipientsArgument (options : EmailOptions) : option Recipients :=
  match to options with
  | Some l => Some (AsList l)
  | None => option_map (fun s => AsList (JsString.split_comma s)) (REPORT_RECIPIENTS env)
  end.

Definition emailRequest (key sender : string) (recipients : list string)
    (options : EmailOptions) : Request :=
  {| url := "https://api.resend.com/emails";
     method := "POST";
     headers := [("Content-Type", "application/json");
                 ("Authorization", "Bearer " ++ key)];
     body := JObj [("from", JStr sender);
                   ("to", JArr (map JStr recipients));
                   ("subject", JStr (subject options));
                   ("text", JStr (text options))] |}.

Definition sendEmail (options : EmailOptions) : Net NotifyResult :=
  let fetchImpl := nullishOr (emailFetchImpl options) fetch in
  let recipients := normaliseRecipients (recipientsArgument options) in
  match recipients with
  | [] => ret (failure email "Missing email recipients")
  | _ :: _ =>
      match nullish (apiKey options) (RESEND_API_KEY env) with
      | None => ret (failure email "Missing Resend API key")
      | Some key =>
          if negb (JsString.truthy key)
          then ret (failure email "Missing Resend API key")
          else
            match nullish (from options) (REPORT_SENDER env) with
            | None => ret (failure email "Missing report sender address")
            | Some sender =>
                if negb (JsString.truthy sender)
                then ret (failure email "Missing report sender address")
                else
                  r <- call fetchImpl (emailRequest key sender recipients options) ;;
                  match r with
                  | Resolved response =>
                      if negb (Http.ok response)
                      then ret (failure email
                                  ("Resend responded " ++ JsString.decimal (status response)))
                      else ret (success email)
                  | Rejected e => ret (failure email (messageOf e "Resend request failed"))
                  end
            end
      end
  end.

End Senders.
End Notifier.

(** ** JavaScript numbers

    The scoring code uses numbers only through the operations below.  It is
    written once, over this interface.  [Binary64] is what a JavaScript
    engine computes, and what is said of a score is said of that instance.
    [Exact] is arithmetic on rationals, which no engine runs: it serves only
    to say by how much the quotient by 3.28084 and the product by 0.3048
    differ before any rounding. *)

Module JsNumber.

Class Ops (num : Type) := {
  lit : Q -> num;               (* a decimal literal of the source *)
  add : num -> num -> num;
  sub : num -> num -> num;
  mul : num -> num -> num;
  div : num -> num -> num;
  le : num -> num -> bool;      (* a <= b *)
  ge : num -> num -> bool;      (* a >= b *)
  isNaN : num -> bool;          (* Number.isNaN *)
  Math_min : num -> num -> num;
  Math_max : num -> num -> num;
  Math_round : num -> num
}.

Declare Scope js_scope.
Delimit Scope js_scope with js.
Infix "+" := add : js_scope.
Infix "-" := sub : js_scope.
Infix "*" := mul : js_scope.
Infix "/" := div : js_scope.
Infix "<=" := le : js_scope.
Infix ">=" := ge : js_scope.

End JsNumber.

(** IEEE-754 binary64, round to nearest even: the numbers of the engine. *)
Module Binary64.
Import JsNumber.

(** An integer of magnitude below 2^53 as a float (exact). *)
Definition of_Z (z : Z) : float :=
  match z with
  | Z0 => PrimFloat.zero
  | Zpos _ => PrimFloat.of_uint63 (Uint63.of_Z z)
  | Zneg p => PrimFloat.opp (PrimFloat.of_uint63 (Uint63.of_Z (Zpos p)))
  end.

(** The double nearest to the decimal literal [q]: numerator and
    denominator are exact, and the division rounds once. *)
Definition literal (q : Q) : float :=
  PrimFloat.div (of_Z (Qnum q)) (of_Z (Zpos (Qden q))).

(** [Math.min]: NaN if either argument is, and -0 below +0. *)
Definition Math_min (a b : float) : float :=
  if PrimFloat.is_nan a || PrimFloat.is_nan b then PrimFloat.nan
  else if PrimFloat.ltb a b then a
  else if PrimFloat.ltb b a then b
  else if PrimFloat.get_sign a then a else b.

Definition Math_max (a b : float) : float :=
  if PrimFloat.is_nan a || PrimFloat.is_nan b then PrimFloat.nan
  else if PrimFloat.ltb a b then b
  else if PrimFloat.ltb b a then a
  else if PrimFloat.get_sign a then b else a.

(** [Math.round]: floor (x + 1/2), computed on the exact value
    (-1)^s * m * 2^e of the double; NaN, the infinities and the zeros are
    returned unchanged, and a negative value that rounds to zero gives -0. *)
Definition Math_round (x : float) : float :=
  match Prim2SF x with
  | S754_finite s m e =>
      if (0 <=? e)%Z then x
      else
        let v := if s then Zneg m else Zpos m in
        let n := ((2 * v + 2 ^ (- e)) / 2 ^ (1 - e))%Z in
        if (n =? 0)%Z then (if s then PrimFloat.neg_zero else PrimFloat.zero)
        else of_Z n
  | _ => x
  end.

#[global] Instance ops : Ops float := {|
  lit := literal;
  add := PrimFloat.add;
  sub := PrimFloat.sub;
  mul := PrimFloat.mul;
  div := PrimFloat.div;
  le := PrimFloat.leb;
  ge := fun a b => PrimFloat.leb b a;
  isNaN := PrimFloat.is_nan;
  JsNumber.Math_min := Math_min;
  JsNumber.Math_max := Math_max;
  JsNumber.Math_round := Math_round
|}.

(** [Number.isFinite]. *)
Definition isFinite (x : float) : bool := PrimFloat.is_finite x.

(** The digits of [n] with a point before the last [f] of them, zeros
    added in front so that at least one digit stands before the point. *)
Fixpoint zeros (k : nat) : string :=
  match k with
  | O => ""
  | S k' => String "0" (zeros k')
  end.

Definition fixedDigits (n : N) (f : nat) : string :=
  let m := JsString.decimal n in
  match f with
  | O => m
  | S _ =>
      let m' := zeros (S f - String.length m) ++ m in
      let k := (String.length m' - f)%nat in
      substring 0 k m' ++ "." ++ substring k f m'
  end.

(** [x.toFixed(f)] for a finite [x] of magnitude below 10^21: the integer n
    nearest to x * 10^f (the larger one of two), printed with the point
    [f] digits from the right and a minus sign when x < 0.  Above 10^21
    JavaScript prints the number as [String(x)] does, which is left to
    [numberToString]. *)
Definition toFixed (numberToString : float -> string) (x : float) (f : nat) : string :=
  match Prim2SF x with
  | S754_zero _ => fixedDigits 0 f
  | S754_finite s m e =>
      let scaled := (Zpos m * 10 ^ Z.of_nat f)%Z in
      let n := if (0 <=? e)%Z then (scaled * 2 ^ e)%Z
               else ((2 * scaled + 2 ^ (- e)) / 2 ^ (1 - e))%Z in
      if (10 ^ (21 + Z.of_nat f) <=? n)%Z then numberToString x
      else (if s then "-" else "") ++ fixedDigits (Z.to_N n) f
  | _ => numberToString x
  end.

End Binary64.

(** The operations on rationals, with NaN: no rounding and no infinities,
    so the scores of this instance are not those of the engine (for a swell
    period of 12 s and nothing else the engine gives 57, this instance 58).
    A division by zero gives NaN. *)
Module Exact.
Import JsNumber.

Inductive num :=
| NaN
| Fin (q : Q).

Definition lift2 (f : Q -> Q -> Q) (a b : num) : num :=
  match a, b with
  | Fin x, Fin y => Fin (f x y)
  | _, _ => NaN
  end.

Definition test2 (f : Q -> Q -> bool) (a b : num) : bool :=
  match a, b with
  | Fin x, Fin y => f x y
  | _, _ => false
  end.

Definition div (a b : num) : num :=
  match a, b with
  | Fin x, Fin y => if Qeq_bool y 0 then NaN else Fin (x / y)
  | _, _ => NaN
  end.

Definition isNaN (a : num) : bool :=
  match a with NaN => true | Fin _ => false end.

Definition Math_min (a b : num) : num :=
  match a, b with
  | Fin x, Fin y => if Qle_bool x y then a else b
  | _, _ => NaN
  end.

Definition Math_max (a b : num) : num :=
  match a, b with
  | Fin x, Fin y => if Qle_bool x y then b else a
  | _, _ => NaN
  end.

(** floor (x + 1/2). *)
Definition Math_round (a : num) : num :=
  match a with
  | Fin x => Fin (inject_Z (Qfloor (x + (1 # 2))))
  | NaN => NaN
  end.

#[global] Instance ops : Ops num := {|
  lit := Fin;
  add := lift2 Qplus;
  sub := lift2 Qminus;
  mul := lift2 Qmult;
  JsNumber.div := div;
  le := test2 Qle_bool;
  ge := test2 (fun x y => Qle_bool y x);
  JsNumber.isNaN := isNaN;
  JsNumber.Math_min := Math_min;
  JsNumber.Math_max := Math_max;
  JsNumber.Math_round := Math_round
|}.

End Exact.

(** ** The marine index: [VoyageRecord] of lib/server/vessel-data,
    [computeIoiFromMarine] and [deriveVoyageIoi] *)

Module Ioi.
Import JsNumber.

Record VoyageRecord (num : Type) := {
  id : string;
  cargo : string;
  etd : string;
  eta : string;
  voyageStatus : string;
  origin : string;
  destination : string;
  swellFt : num;
  voyageWindKt : num
}.

(** Every field is [number | null] and may be left out. *)
Record MarineSnapshot (num : Type) := {
  hs : option num;
  windKt : option num;
  swellPeriod : option num;
  ioi : option num
}.

Arguments swellFt {num}.
Arguments voyageWindKt {num}.
Arguments hs {num}.
Arguments windKt {num}.
Arguments swellPeriod {num}.
Arguments ioi {num}.

Section Scoring.
Context {num : Type} `{Ops num}.
Local Open Scope js_scope.

Definition HS_CAUTION : num := lit 1.5.
Definition HS_NOGO : num := lit 2.5.
Definition WIND_CAUTION : num := lit 18.
Definition WIND_NOGO : num := lit 28.
Definition SWELL_MIN : num := lit 6.
Definition SWELL_MAX : num := lit 12.

Definition computeIoiFromMarine (snapshot : MarineSnapshot num) : option num :=
  let hs := hs snapshot in
  let wind := windKt snapshot in
  let period := swellPeriod snapshot in
  let hsScore :=
    match hs with
    | None => lit 0.5
    | Some hs =>
        if isNaN hs then lit 0.5
        else if hs <= HS_CAUTION then lit 1
        else if hs >= HS_NOGO then lit 0
        else lit 1 - (hs - HS_CAUTION) / (HS_NOGO - HS_CAUTION)
    end in
  let windScore :=
    match wind with
    | None => lit 0.5
    | Some wind =>
        if isNaN wind then lit 0.5
        else if wind <= WIND_CAUTION then lit 1
        else if wind >= WIND_NOGO then lit 0
        else lit 1 - (wind - WIND_CAUTION) / (WIND_NOGO - WIND_CAUTION)
    end in
  let boundedPeriod := Math_min SWELL_MAX (Math_max SWELL_MIN (nullishOr period (lit 8))) in
  let swellScore := (boundedPeriod - SWELL_MIN) / (SWELL_MAX - SWELL_MIN) in
  let combined := lit 0.5 * hsScore + lit 0.35 * windScore + lit 0.15 * swellScore in
  let ioi := Math_round (combined * lit 100) in
  Some (Math_max (lit 0) (Math_min (lit 100) ioi)).

Definition deriveVoyageIoi (voyage : VoyageRecord num) : num :=
  let hs := swellFt voyage / lit 3.28084 in
  let snapshot :=
    {| hs := Some hs;
       windKt := Some (voyageWindKt voyage);
       swellPeriod := Some (lit 8);
       ioi := None |} in
  nullishOr (computeIoiFromMarine snapshot) (lit 50).

End Scoring.
End Ioi.

(** ** app/api/report/route *)

Module Report.
Import Js Http Notifier.

Inductive ReportSlot := am | pm.

Definition slotName (slot : ReportSlot) : string :=
  match slot with am => "am" | pm => "pm" end.

Record LastReportMeta := {
  slot : ReportSlot;
  generatedAt : string;
  timezone : string;
  sample : string;
  sent : list NotifyResult
}.

Definition DEFAULT_TZ : string := "Asia/Dubai".

Definition REPORT_SLOTS (slot : ReportSlot) : string :=
  match slot with am => "06:00" | pm => "17:00" end.

(** The two fields of [VESSEL_DATASET] (lib/server/vessel-data) that the
    route reads. *)
Definition VESSEL_DATASET_timezone : string := "Asia/Dubai".
Definition VESSEL_DATASET_vessel_port : string := "Jebel Ali".

(** What the runtime throws on its own, outside every [try] of the
    handler; the messages are the engine's. *)
Inductive Exception := TypeError | RangeError.

(** What the JavaScript host supplies and the route only calls: [Date]'s
    ISO rendering; the wall-clock hour of an instant in a time zone (the
    [Intl.DateTimeFormat] construction and formatting of [inferSlot], which
    throws on a zone that the host does not know); [encodeURIComponent]
    ([None] when it throws, inside a [try]); the conversion to a string of a
    value that is not one (it throws on an object that has no primitive
    value); and the digits of a number. *)
Record Host := {
  toISOString : Z -> string;
  localHour : string -> Z -> Z + Exception;
  encodeURIComponent : Json -> option string;
  ToString : Json -> string + Exception;
  numberToString : float -> string
}.

(** The request as the handler reads it: the origin that relative URLs are
    resolved against, [searchParams.has("preview")] and
    [searchParams.get("slot")]. *)
Record ReportRequest := {
  requestOrigin : string;
  previewParam : bool;
  slotParam : option string
}.

Record URL := {
  href : string;
  pathname : string
}.

Inductive Body :=
| Preview (ok : bool) (generatedAt : option string) (slot : option ReportSlot)
    (timezone : string) (sample : option string) (sent : list NotifyResult)
| Failure (ok : bool) (error : string)
| Report (ok : bool) (slot : ReportSlot) (generatedAt : string) (timezone : string)
    (sample : string) (sent : list NotifyResult) (scheduleSize : Json) (marine : Json)
    (slotTime : string).

Record HttpResponse := {
  responseStatus : N;
  responseBody : Body
}.

(** How a call of the handler ends: with a response, or with an exception
    that nothing in the handler catches. *)
Inductive Outcome :=
| Responded (response : HttpResponse)
| Threw (e : Exception).

(** The module's state: the network log and [let lastReport]. *)
Record World := {
  calls : list Request;
  lastReport : option LastReportMeta
}.

Definition liftNet {A} (c : Net A) : state World A :=
  mkState (fun w =>
             let (a, log) := runState c (calls w) in
             (a, {| calls := log; lastReport := lastReport w |})).

Definition setLastReport (r : LastReportMeta) : state World unit :=
  w <- get ;;
  put {| calls := calls w; lastReport := Some r |}.

Section Route.
Variable host : Host.
Variable env : ProcessEnv.
Variable fetch : Fetch.
Variable now : Z.               (* new Date(), in epoch milliseconds *)

(** [a || b] on strings. *)
Definition orString (a : option string) (b : string) : string :=
  match a with
  | Some s => if JsString.truthy s then s else b
  | None => b
  end.

Definition resolveTimezone : string :=
  orString (REPORT_TIMEZONE env) (orString (Some VESSEL_DATASET_timezone) DEFAULT_TZ).

Definition inferSlot (now : Z) (timezone : string) : ReportSlot + Exception :=
  match localHour host timezone now with
  | inl hour => inl (if (hour <? 12)%Z then am else pm)
  | inr e => inr e
  end.

Definition normaliseSlot (slotParam : option string) (now : Z) (timezone : string)
    : ReportSlot + Exception :=
  match slotParam with
  | Some p =>
      if String.eqb p "am" then inl am
      else if String.eqb p "pm" then inl pm
      else inferSlot now timezone
  | None => inferSlot now timezone
  end.

(** [new URL(path, request.url)], the path given as path name and query. *)
Definition relativeUrl (request : ReportRequest) (path query : string) : URL :=
  {| href := requestOrigin request ++ path ++ query; pathname := path |}.

Definition getRequest (u : URL) : Request :=
  {| url := href u; method := "GET"; headers := []; body := JUndefined |}.

Definition fetchJson (u : URL) : Net (Json + Thrown) :=
  r <- call fetch (getRequest u) ;;
  match r with
  | Rejected e => ret (inr e)
  | Resolved response =>
      if negb (Http.ok response)
      then ret (inr (ThrownError ("Failed to fetch " ++ pathname u ++ ": "
                                    ++ JsString.decimal (status response))))
      else ret (json response)
  end.

Definition formatMetric (value : Json) (unit : string) : string :=
  match value with
  | JNum x =>
      if Binary64.isFinite x
      then Binary64.toFixed (numberToString host) x 2 ++ " " ++ unit
      else "n/a " ++ unit
  | _ => "n/a " ++ unit
  end.

Definition buildMarineLine (snapshot : Json) : string :=
  if negb (truthy snapshot) then "[Marine Snapshot] 데이터 없음"
  else
    let hs := formatMetric (orElse (prop "hs" snapshot) JNull) "m" in
    let wind := formatMetric (orElse (prop "windKt" snapshot) JNull) "kt" in
    let ioi :=
      match prop "ioi" snapshot with
      | JNum x =>
          if Binary64.isFinite x
          then Binary64.toFixed (numberToString host) x 0
          else "n/a"
      | _ => "n/a"
      end in
    "[Marine Snapshot] Hs " ++ hs ++ " · Wind " ++ wind ++ " · IOI " ++ ioi.

Definition slackMessage (sample : string) (slot : ReportSlot) (timezone : string) : string :=
  let label := match slot with am => "Morning" | pm => "Evening" end in
  JsString.join (JsString.LF ++ JsString.LF)
    ["*Daily Report – " ++ label ++ " (" ++ timezone ++ ")*"; sample].

Definition emailSubject (vesselName : string) (slot : ReportSlot) (timezone : string) : string :=
  let slotLabel := match slot with am => "06:00" | pm => "17:00" end in
  vesselName ++ " 자동 브리핑 · " ++ JsString.toUpperCase (slotName slot)
    ++ " (" ++ slotLabel ++ " " ++ timezone ++ ")".

(** A value interpolated in a template literal. *)
Definition interpolate (j : Json) : string + Exception :=
  match j with
  | JStr s => inl s
  | _ => ToString host j
  end.

(** The first [try] block after the vessel fetch: any failure leaves null. *)
Definition fetchMarine (request : ReportRequest) (vesselData : Json) : Net Json :=
  let port := orElse (prop "port" (prop "vessel" vesselData))
                     (JStr VESSEL_DATASET_vessel_port) in
  match encodeURIComponent host port with
  | None => ret JNull
  | Some encoded =>
      r <- fetchJson (relativeUrl request "/api/marine" ("?port=" ++ encoded)) ;;
      match r with
      | inl marineSnapshot => ret marineSnapshot
      | inr _ => ret JNull
      end
  end.

Definition briefingRequest (request : ReportRequest) (vesselData : Json) : Request :=
  let briefingUrl := relativeUrl request "/api/briefing" "" in
  let payload :=
    JObj [("current_time", JStr (toISOString host now));
          ("vessel_name", prop "name" (prop "vessel" vesselData));
          ("vessel_status", prop "status" (prop "vessel" vesselData));
          ("current_voyage", orElse (firstId (prop "schedule" vesselData)) JNull);
          ("schedule", orElse (prop "schedule" vesselData) (JArr []));
          ("weather_windows", orElse (prop "weatherWindows" vesselData) (JArr []))] in
  {| url := href briefingUrl;
     method := "POST";
     headers := [("Content-Type", "application/json")];
     body := payload |}.

(** [data?.briefing ?? ""]: the declared type [{ briefing?: string }] is
    not checked, so what is kept is whatever the body holds there. *)
Definition briefingOf (data : Json) : Json :=
  orElse (prop "briefing" data) (JStr "").

(** The second [try] block: the value bound to [briefing], or what its
    [catch] receives. *)
Definition fetchBriefing (request : ReportRequest) (vesselData : Json)
    : Net (Json + Thrown) :=
  r <- call fetch (briefingRequest request vesselData) ;;
  match r with
  | Rejected e => ret (inr e)
  | Resolved response =>
      if negb (Http.ok response)
      then ret (inr (ThrownError ("Briefing route responded "
                                    ++ JsString.decimal (status response))))
      else
        match json response with
        | inl data => ret (inl (briefingOf data))
        | inr e => ret (inr e)
        end
  end.

(** [[briefing.trim(), "", marineLine].join("\n")] for a [briefing] that is
    a string. *)
Definition composeSample (briefing : string) (marineSnapshot : Json) : string :=
  let marineLine := buildMarineLine marineSnapshot in
  JsString.join JsString.LF [JsString.trim briefing; ""; marineLine].

(** [return NextResponse.json(body, { status })]. *)
Definition NextResponse_json (response : HttpResponse) : state World Outcome :=
  ret (Responded response).

Definition throw (e : Exception) : state World Outcome :=
  ret (Threw e).

Definition anyOk (sent : list NotifyResult) : bool :=
  existsb (fun entry => Notifier.ok entry) sent.

(** The handler.  Three steps stand outside every [try]: the slot is
    resolved after the vessel fetch and before the marine fetch; [trim] is
    called on [briefing] after the narrative fetch, and a value that is not a
    string has no such method; the vessel's name is interpolated in the
    subject after the Slack call has been awaited. *)
Definition GET (request : ReportRequest) : state World Outcome :=
  let timezone := resolveTimezone in
  if previewParam request then
    w <- get ;;
    let last := lastReport w in
    NextResponse_json
      {| responseStatus := 200;
         responseBody :=
           Preview (nullishOr (option_map (fun r => anyOk (sent r)) last) false)
                   (option_map generatedAt last)
                   (option_map slot last)
                   timezone
                   (option_map sample last)
                   (nullishOr (option_map sent last) []) |}
  else
    v <- liftNet (fetchJson (relativeUrl request "/api/vessel" "")) ;;
    match v with
    | inr e =>
        NextResponse_json
          {| responseStatus := 502;
             responseBody :=
               Failure false (messageOf e "Failed to fetch vessel data") |}
    | inl vesselData =>
        match normaliseSlot (slotParam request) now timezone with
        | inr thrown => throw thrown
        | inl slot =>
            marineSnapshot <- liftNet (fetchMarine request vesselData) ;;
            b <- liftNet (fetchBriefing request vesselData) ;;
            match b with
            | inr e =>
                NextResponse_json
                  {| responseStatus := 502;
                     responseBody :=
                       Failure false (messageOf e "Failed to generate briefing") |}
            | inl (JStr briefing) =>
                let sample := composeSample briefing marineSnapshot in
                slackResult <-
                  liftNet (sendSlack env fetch
                             {| message := slackMessage sample slot timezone;
                                webhookUrl := None;
                                slackFetchImpl := None |}) ;;
                match interpolate (orElse (prop "name" (prop "vessel" vesselData))
                                          (JStr "Vessel")) with
                | inr thrown => throw thrown
                | inl vesselName =>
                    emailResult <-
                      liftNet (sendEmail env fetch
                                 {| subject := emailSubject vesselName slot timezone;
                                    text := sample;
                                    to := None;
                                    from := None;
                                    apiKey := None;
                                    emailFetchImpl := None |}) ;;
                    let sent := [slackResult; emailResult] in
                    let ok := anyOk sent in
                    let record :=
                      {| slot := slot;
                         generatedAt := toISOString host now;
                         timezone := timezone;
                         sample := sample;
                         sent := sent |} in
                    setLastReport record ;;
                    NextResponse_json
                      {| responseStatus := 200;
                         responseBody :=
                           Report ok slot (generatedAt record) timezone sample sent
                             (orElse (length (prop "schedule" vesselData))
                                     (JNum PrimFloat.zero))
                             (if truthy marineSnapshot
                              then JObj [("port",
                                          orElse (prop "port" marineSnapshot) JNull)]
                              else JObj [("error", JStr "n/a")])
                             (REPORT_SLOTS slot) |}
                end
            | inl _ => throw TypeError
            end
        end
    end.

End Route.
End Report.

(** ** scripts/scheduler *)

Module Scheduler.
Import Js Http.

Inductive Slot := am | pm.

Definition slotName (slot : Slot) : string :=
  match slot with am => "am" | pm => "pm" end.

Definition slot_eqb (a b : Slot) : bool :=
  match a, b with
  | am, am | pm, pm => true
  | _, _ => false
  end.

Record LockFile := {
  slot : Slot;
  timestamp : Z
}.

(** The environment variables the scheduler reads. *)
Record SchedulerEnv := {
  REPORT_ENDPOINT : option string
}.

Definition endpoint (env : SchedulerEnv) : string :=
  nullishOr (REPORT_ENDPOINT env) "http://localhost:3000/api/report".

Inductive Logged :=
| Log (text : string) (value : option Json)
| Warn (text : string) (value : Json)
| Error (text : string) (caught : Thrown).

(** The lock file as [readLock] reads it ([None]: no file, or a content
    that does not parse), the network log and the console. *)
Record Machine := {
  lockFile : option LockFile;
  calls : list Request;
  console : list Logged
}.

Definition readLock : state Machine (option LockFile) :=
  m <- get ;;
  ret (lockFile m).

Definition writeLock (data : LockFile) : state Machine unit :=
  m <- get ;;
  put {| lockFile := Some data; calls := calls m; console := console m |}.

Definition print (entry : Logged) : state Machine unit :=
  m <- get ;;
  put {| lockFile := lockFile m; calls := calls m; console := (console m ++ [entry])%list |}.

Definition liftNet {A} (c : Net A) : state Machine A :=
  mkState (fun m =>
             let (a, log) := runState c (calls m) in
             (a, {| lockFile := lockFile m; calls := log; console := console m |})).

Section Trigger.
Variable env : SchedulerEnv.
Variable fetch : Fetch.
Variable now : Z.               (* Date.now() *)

(** [last && last.slot === slot && now - last.timestamp < 5 * 60 * 1000]. *)
Definition recentlyRun (last : option LockFile) (slot : Slot) : bool :=
  match last with
  | Some l => slot_eqb (Scheduler.slot l) slot && (now - timestamp l <? 5 * 60 * 1000)%Z
  | None => false
  end.

Definition reportRequest (slot : Slot) : Request :=
  {| url := endpoint env ++ "?slot=" ++ slotName slot;
     method := "GET";
     headers := [];
     body := JUndefined |}.

Definition triggerReport (slot : Slot) : state Machine unit :=
  last <- readLock ;;
  if recentlyRun last slot then
    print (Log ("[scheduler] skipping " ++ slotName slot
                  ++ " run – already executed within 5 minutes") None)
  else
    r <- liftNet (call fetch (reportRequest slot)) ;;
    match r with
    | Rejected e =>
        print (Error ("[scheduler] failed to deliver " ++ slotName slot ++ " report") e)
    | Resolved response =>
        match json response with
        | inr e =>
            print (Error ("[scheduler] failed to deliver " ++ slotName slot ++ " report") e)
        | inl json =>
            (if negb (Http.ok response) || negb (truthy (prop "ok" json))
             then print (Warn ("[scheduler] " ++ slotName slot ++ " report responded with") json)
             else writeLock {| slot := slot; timestamp := now |}) ;;
            print (Log ("[scheduler] " ++ slotName slot ++ " report") (Some json))
        end
    end.

End Trigger.
End Scheduler.

(** * Properties *)

(** ** The notifier *)

Module NotifierFacts.
Import Js Http Notifier.

Lemma run_call (f : Fetch) (req : Request) (log : list Request) :
  runState (call f req) log = (f log req, (log ++ [req])%list).
Proof. reflexivity. Qed.

Lemma missing_spec (s : option string) :
  missing s = true <-> s = None \/ s = Some "".
Proof.
  destruct s as [[|a v]|]; cbn; split; intros H; auto;
    try discriminate; destruct H as [H|H]; discriminate.
Qed.

Lemma present_spec (s : option string) :
  missing s = false <-> exists v, s = Some v /\ JsString.truthy v = true.
Proof.
  destruct s as [[|a u]|]; cbn; split; intros H; try discriminate.
  - destruct H as (v & E & T). inversion E; subst. discriminate.
  - eauto.
  - reflexivity.
  - destruct H as (v & E & _). discriminate.
Qed.

Lemma ok_range (r : Response) :
  Http.ok r = true <-> (200 <= status r <= 299)%N.
Proof.
  unfold Http.ok. rewrite andb_true_iff, !N.leb_le. tauto.
Qed.

(** What a sender makes of the outcome of its one POST. *)
Definition mapped (c : NotifyChannel) (responded fallback : string) (r : FetchResult)
    : NotifyResult :=
  match r with
  | Resolved response =>
      if Http.ok response then success c
      else failure c (responded ++ JsString.decimal (status response))
  | Rejected e => failure c (messageOf e fallback)
  end.

Lemma mapped_channel c responded fallback r :
  channel (mapped c responded fallback r) = c.
Proof.
  destruct r as [response|e]; cbn; [destruct (Http.ok response)|]; reflexivity.
Qed.

Lemma mapped_ok c responded fallback r :
  ok (mapped c responded fallback r) = true
  <-> exists response, r = Resolved response /\ (200 <= status response <= 299)%N.
Proof.
  destruct r as [response|e]; cbn.
  - destruct (Http.ok response) eqn:E; cbn; split; intros H; try discriminate.
    + exists response. split; [reflexivity | now apply ok_range].
    + reflexivity.
    + destruct H as (r' & Er & Hr). inversion Er; subst r'.
      apply ok_range in Hr. congruence.
  - split; [discriminate | intros (r' & Er & _); discriminate].
Qed.

Lemma sendSlack_unresolved env fetch options log :
  missing (nullish (webhookUrl options) (SLACK_WEBHOOK_URL env)) = true ->
  runState (sendSlack env fetch options) log
  = (failure slack "Missing Slack webhook URL", log).
Proof.
  unfold sendSlack.
  destruct (nullish (webhookUrl options) (SLACK_WEBHOOK_URL env)) as [[|a s]|];
    cbn; intros H; try reflexivity; discriminate.
Qed.

Lemma sendSlack_resolved env fetch options log hook :
  nullish (webhookUrl options) (SLACK_WEBHOOK_URL env) = Some hook ->
  JsString.truthy hook = true ->
  runState (sendSlack env fetch options) log
  = (mapped slack "Slack webhook responded " "Slack webhook error"
       (nullishOr (slackFetchImpl options) fetch log (slackRequest hook options)),
     (log ++ [slackRequest hook options])%list).
Proof.
  intros Hw Ht. unfold sendSlack. rewrite Hw, Ht. cbn.
  destruct (nullishOr (slackFetchImpl options) fetch log (slackRequest hook options))
    as [response|e]; cbn.
  - destruct (Http.ok response); reflexivity.
  - reflexivity.
Qed.

Lemma sendSlack_channel env fetch options log :
  channel (fst (runState (sendSlack env fetch options) log)) = slack.
Proof.
  destruct (missing (nullish (webhookUrl options) (SLACK_WEBHOOK_URL env))) eqn:M.
  - rewrite sendSlack_unresolved by assumption. reflexivity.
  - apply present_spec in M. destruct M as (hook & E & T).
    rewrite (sendSlack_resolved _ _ _ _ hook) by assumption.
    apply mapped_channel.
Qed.

(** The recipients, the credential and the sender as [sendEmail] resolves
    them. *)
Definition resolvedRecipients (env : ProcessEnv) (options : EmailOptions) : list string :=
  normaliseRecipients (recipientsArgument env options).

Definition resolvedKey (env : ProcessEnv) (options : EmailOptions) : option string :=
  nullish (apiKey options) (RESEND_API_KEY env).

Definition resolvedSender (env : ProcessEnv) (options : EmailOptions) : option string :=
  nullish (from options) (REPORT_SENDER env).

Lemma sendEmail_no_recipients env fetch options log :
  resolvedRecipients env options = [] ->
  runState (sendEmail env fetch options) log
  = (failure email "Missing email recipients", log).
Proof.
  unfold resolvedRecipients, sendEmail. intros ->. reflexivity.
Qed.

Lemma sendEmail_no_key env fetch options log :
  resolvedRecipients env options <> [] ->
  missing (resolvedKey env options) = true ->
  runState (sendEmail env fetch options) log
  = (failure email "Missing Resend API key", log).
Proof.
  unfold resolvedRecipients, resolvedKey, sendEmail. intros Hr Hk.
  destruct (normaliseRecipients (recipientsArgument env options)) as [|r rs];
    [congruence|].
  destruct (nullish (apiKey options) (RESEND_API_KEY env)) as [[|a k]|];
    cbn in *; try reflexivity; discriminate.
Qed.

Lemma sendEmail_no_sender env fetch options log :
  resolvedRecipients env options <> [] ->
  missing (resolvedKey env options) = false ->
  missing (resolvedSender env options) = true ->
  runState (sendEmail env fetch options) log
  = (failure email "Missing report sender address", log).
Proof.
  unfold resolvedRecipients, resolvedKey, resolvedSender, sendEmail. intros Hr Hk Hs.
  destruct (normaliseRecipients (recipientsArgument env options)) as [|r rs];
    [congruence|].
  destruct (nullish (apiKey options) (RESEND_API_KEY env)) as [[|a k]|];
    cbn in *; try discriminate.
  destruct (nullish (from options) (REPORT_SENDER env)) as [[|b t]|];
    cbn in *; try reflexivity; discriminate.
Qed.

Lemma sendEmail_posts env fetch options log key sender :
  resolvedRecipients env options <> [] ->
  resolvedKey env options = Some key -> JsString.truthy key = true ->
  resolvedSender env options = Some sender -> JsString.truthy sender = true ->
  let req := emailRequest key sender (resolvedRecipients env options) options in
  runState (sendEmail env fetch options) log
  = (mapped email "Resend responded " "Resend request failed"
       (nullishOr (emailFetchImpl options) fetch log req),
     (log ++ [req])%list).
Proof.
  unfold resolvedRecipients, resolvedKey, resolvedSender, sendEmail.
  intros Hr Hk Tk Hs Ts.
  destruct (normaliseRecipients (recipientsArgument env options)) as [|r rs];
    [congruence|].
  rewrite Hk, Hs, Tk, Ts. cbn.
  destruct (nullishOr (emailFetchImpl options) fetch log
              (emailRequest key sender (r :: rs) options)) as [response|e]; cbn.
  - destruct (Http.ok response); reflexivity.
  - reflexivity.
Qed.

Lemma sendEmail_channel env fetch options log :
  channel (fst (runState (sendEmail env fetch options) log)) = email.
Proof.
  destruct (resolvedRecipients env options) as [|r rs] eqn:R.
  { rewrite sendEmail_no_recipients by assumption. reflexivity. }
  assert (R' : resolvedRecipients env options <> []) by congruence.
  destruct (missing (resolvedKey env options)) eqn:K.
  { rewrite sendEmail_no_key by assumption. reflexivity. }
  destruct (missing (resolvedSender env options)) eqn:S.
  { rewrite sendEmail_no_sender by assumption. reflexivity. }
  apply present_spec in K, S.
  destruct K as (key & K & Tk), S as (sender & S & Ts).
  rewrite (sendEmail_posts _ _ _ _ key sender) by assumption.
  apply mapped_channel.
Qed.

(** Entries that [trim] empties give no recipient. *)
Lemma normalise_blank (l : list string) :
  Forall (fun entry => JsString.trim entry = "") l ->
  normaliseRecipients (Some (AsList l)) = [].
Proof.
  cbn. induction 1 as [|entry l Hb _ IH]; cbn; [reflexivity|].
  rewrite Hb. cbn. exact IH.
Qed.

Lemma normalise_list_spec (l : list string) (r : string) :
  In r (normaliseRecipients (Some (AsList l)))
  <-> r <> "" /\ exists entry, In entry l /\ r = JsString.trim entry.
Proof.
  cbn. rewrite filter_In, in_map_iff. unfold nonEmpty. split.
  - intros ((entry & E & I) & T). split; [intros ->; discriminate | eauto].
  - intros (N & entry & I & E). split; [eauto|].
    destruct r; [congruence | reflexivity].
Qed.

(** A string of one-byte white space only is blank: [trim] empties it. *)
Lemma trim_white (s : string) :
  forallb JsString.ws1 (JsString.bytes s) = true -> JsString.trim s = "".
Proof.
  unfold JsString.trim. intros H.
  assert (E : JsString.dropSpace false (JsString.bytes s) = []).
  { induction (JsString.bytes s) as [|a l IH]; [reflexivity|].
    cbn in H. apply andb_true_iff in H. destruct H as [Ha Hl].
    cbn. rewrite Ha. auto. }
  rewrite E. reflexivity.
Qed.

(** The recipients before normalisation, in the words of the interface: the
    explicit list, else the configured comma-separated string cut at its
    commas, else none. *)
Definition rawRecipients (env : ProcessEnv) (options : EmailOptions) : list string :=
  match to options with
  | Some l => l
  | None =>
      match REPORT_RECIPIENTS env with
      | Some configured => JsString.split_comma configured
      | None => []
      end
  end.

Lemma resolvedRecipients_raw env options (r : string) :
  In r (resolvedRecipients env options)
  <-> r <> "" /\ exists entry, In entry (rawRecipients env options) /\ r = JsString.trim entry.
Proof.
  unfold resolvedRecipients, recipientsArgument, rawRecipients.
  destruct (to options) as [l|]; [apply normalise_list_spec|].
  destruct (REPORT_RECIPIENTS env) as [configured|]; [apply normalise_list_spec|].
  cbn. split; [tauto | intros (_ & entry & [] & _)].
Qed.

(** C6.  [sendSlack] always returns a result for the slack channel.  With
    no webhook URL resolvable from the argument or the environment it fails
    with "Missing Slack webhook URL" and sends nothing.  Otherwise it sends
    exactly one POST to the webhook; the result is ok exactly when the
    answer is a response with a status in 200..299, whatever its body; any
    other status gives a failure whose error text carries the status; a
    thrown [Error] gives its message and any other thrown value the text
    "Slack webhook error". *)
Theorem sendSlack_contract env fetch options log :
  let webhook := nullish (webhookUrl options) (SLACK_WEBHOOK_URL env) in
  let outcome := runState (sendSlack env fetch options) log in
  channel (fst outcome) = slack
  /\ (missing webhook = true ->
      outcome = (failure slack "Missing Slack webhook URL", log))
  /\ (forall hook, webhook = Some hook -> JsString.truthy hook = true ->
      let req := slackRequest hook options in
      let answer := nullishOr (slackFetchImpl options) fetch log req in
      snd outcome = (log ++ [req])%list
      /\ url req = hook /\ method req = "POST"
      /\ (ok (fst outcome) = true
          <-> exists response,
                answer = Resolved response /\ (200 <= status response <= 299)%N)
      /\ (forall response, answer = Resolved response ->
            (200 <= status response <= 299)%N -> fst outcome = success slack)
      /\ (forall response, answer = Resolved response ->
            ~ (200 <= status response <= 299)%N ->
            fst outcome
            = failure slack
                ("Slack webhook responded " ++ JsString.decimal (status response)))
      /\ (forall m, answer = Rejected (ThrownError m) -> fst outcome = failure slack m)
      /\ (answer = Rejected ThrownOther ->
          fst outcome = failure slack "Slack webhook error")).
Proof.
  cbv zeta. split; [apply sendSlack_channel|]. split.
  - apply sendSlack_unresolved.
  - intros hook Hw Ht. rewrite (sendSlack_resolved _ _ _ _ hook Hw Ht). cbn [fst snd].
    repeat split; try reflexivity.
    + apply mapped_ok.
    + apply mapped_ok.
    + intros response -> Hr. apply ok_range in Hr. cbn. now rewrite Hr.
    + intros response -> Hr. cbn.
      destruct (Http.ok response) eqn:E; [|reflexivity].
      apply ok_range in E. contradiction.
    + intros m ->. reflexivity.
    + intros ->. reflexivity.
Qed.

(** C5.  [sendEmail] checks, in this order and before any network call:
    the recipients (explicit list, else the configured string, trimmed and
    with empty entries dropped), the API key, the sender address; each is
    the explicit argument or else the environment's value.  Only when all
    three are there does it send, and then exactly one POST. *)
Theorem sendEmail_validation_order env fetch options log :
  let recipients := resolvedRecipients env options in
  let key := nullish (apiKey options) (RESEND_API_KEY env) in
  let sender := nullish (from options) (REPORT_SENDER env) in
  let outcome := runState (sendEmail env fetch options) log in
  (forall r, In r recipients
             <-> r <> "" /\ exists entry, In entry (rawRecipients env options)
                                          /\ r = JsString.trim entry)
  /\ (recipients = [] ->
      outcome = (failure email "Missing email recipients", log))
  /\ (recipients <> [] -> missing key = true ->
      outcome = (failure email "Missing Resend API key", log))
  /\ (recipients <> [] -> missing key = false -> missing sender = true ->
      outcome = (failure email "Missing report sender address", log))
  /\ (recipients <> [] -> missing key = false -> missing sender = false ->
      exists req, snd outcome = (log ++ [req])%list
                  /\ method req = "POST"
                  /\ url req = "https://api.resend.com/emails")
  /\ (snd outcome <> log ->
      recipients <> [] /\ missing key = false /\ missing sender = false).
Proof.
  cbv zeta. split; [apply resolvedRecipients_raw|].
  split; [apply sendEmail_no_recipients|].
  split; [apply sendEmail_no_key|].
  split; [apply sendEmail_no_sender|].
  assert (P : resolvedRecipients env options <> [] ->
              missing (resolvedKey env options) = false ->
              missing (resolvedSender env options) = false ->
              exists req,
                snd (runState (sendEmail env fetch options) log) = (log ++ [req])%list
                /\ method req = "POST" /\ url req = "https://api.resend.com/emails").
  { intros Hr Hk Hs. apply present_spec in Hk, Hs.
    destruct Hk as (key & Hk & Tk), Hs as (sender & Hs & Ts).
    rewrite (sendEmail_posts _ _ _ _ key sender Hr Hk Tk Hs Ts).
    eexists. cbn [snd]. repeat split. }
  split; [exact P|].
  intros Hlog.
  destruct (resolvedRecipients env options) as [|r rs] eqn:R.
  { exfalso. apply Hlog. rewrite sendEmail_no_recipients by assumption. reflexivity. }
  assert (R' : resolvedRecipients env options <> []) by congruence.
  split; [congruence|].
  destruct (missing (nullish (apiKey options) (RESEND_API_KEY env))) eqn:K.
  { exfalso. apply Hlog. rewrite sendEmail_no_key by assumption. reflexivity. }
  split; [reflexivity|].
  destruct (missing (nullish (from options) (REPORT_SENDER env))) eqn:S; [|reflexivity].
  exfalso. apply Hlog. rewrite sendEmail_no_sender by assumption. reflexivity.
Qed.

(** C10.  An explicit recipients list that is empty, or whose entries are
    all blank, makes [sendEmail] fail with "Missing email recipients" and
    send nothing, whatever recipients the environment configures: the
    configured value is read only when the argument is absent. *)
Theorem sendEmail_explicit_blank_list env fetch options log (l : list string) :
  to options = Some l ->
  Forall (fun entry => JsString.trim entry = "") l ->
  runState (sendEmail env fetch options) log
  = (failure email "Missing email recipients", log)
  /\ rawRecipients env options = l.
Proof.
  intros Hto Hblank. split.
  - apply sendEmail_no_recipients.
    unfold resolvedRecipients, recipientsArgument. rewrite Hto.
    now apply normalise_blank.
  - unfold rawRecipients. now rewrite Hto.
Qed.

(** Blank entries against a fully configured environment. *)
Lemma sendEmail_explicit_blank_list_witness :
  runState
    (sendEmail
       {| SLACK_WEBHOOK_URL := None;
          RESEND_API_KEY := Some "key";
          REPORT_SENDER := Some "no-reply@example.com";
          REPORT_RECIPIENTS := Some "ops@example.com";
          REPORT_TIMEZONE := None |}
       (fun _ _ => Rejected ThrownOther)
       {| subject := "Subject"; text := "Body"; to := Some [""; "  "];
          from := None; apiKey := None; emailFetchImpl := None |})
    []
  = (failure email "Missing email recipients", [])
  /\ rawRecipients
       {| SLACK_WEBHOOK_URL := None;
          RESEND_API_KEY := Some "key";
          REPORT_SENDER := Some "no-reply@example.com";
          REPORT_RECIPIENTS := Some "ops@example.com";
          REPORT_TIMEZONE := None |}
       {| subject := "Subject"; text := "Body"; to := Some [""; "  "];
          from := None; apiKey := None; emailFetchImpl := None |}
     = [""; "  "].
Proof.
  apply sendEmail_explicit_blank_list.
  - reflexivity.
  - repeat constructor.
Defined.

End NotifierFacts.

(** ** The risk scorer *)

Module IoiFacts.
Import JsNumber Ioi.
Local Open Scope Q_scope.

(** *** The code's sub-expressions, named *)

Section Pieces.
Context {num : Type} `{Ops num}.
Local Open Scope js_scope.

Definition linearScore (caution nogo : num) (x : option num) : num :=
  match x with
  | None => lit 0.5
  | Some v =>
      if isNaN v then lit 0.5
      else if v <= caution then lit 1
      else if v >= nogo then lit 0
      else lit 1 - (v - caution) / (nogo - caution)
  end.

Definition periodScore (period : option num) : num :=
  let boundedPeriod := Math_min SWELL_MAX (Math_max SWELL_MIN (nullishOr period (lit 8))) in
  (boundedPeriod - SWELL_MIN) / (SWELL_MAX - SWELL_MIN).

Definition scaled (combined : num) : num :=
  Math_max (lit 0) (Math_min (lit 100) (Math_round (combined * lit 100))).

Lemma computeIoiFromMarine_pieces (snapshot : MarineSnapshot num) :
  computeIoiFromMarine snapshot
  = Some (scaled (lit 0.5 * linearScore HS_CAUTION HS_NOGO (hs snapshot)
                  + lit 0.35 * linearScore WIND_CAUTION WIND_NOGO (windKt snapshot)
                  + lit 0.15 * periodScore (swellPeriod snapshot))).
Proof. reflexivity. Qed.

End Pieces.

(** *** Binary64 *)

(** [Binary64.literal] gives the double that a decimal literal denotes:
    the constants of the source, written out in binary. *)
Lemma literal_nearest :
  Binary64.literal 0.5 = 0x1p-1%float
  /\ Binary64.literal 0.35 = 0x1.6666666666666p-2%float
  /\ Binary64.literal 0.15 = 0x1.3333333333333p-3%float
  /\ Binary64.literal 1.5 = 0x1.8p+0%float
  /\ Binary64.literal 2.5 = 0x1.4p+1%float
  /\ Binary64.literal 3.28084 = 0x1.a3f290abb44e5p+1%float.
Proof. repeat split; vm_compute; reflexivity. Qed.

(** *** What the engine computes on a swell period that is not a number *)

Definition snapshot64 (h w p : option float) : MarineSnapshot float :=
  {| hs := h; windKt := w; swellPeriod := p; ioi := None |}.

(** C2 (the code departs from it).  A snapshot whose swell period is NaN
    is scored NaN, which is no integer of [0, 100]: the period is the one
    field that the scorer does not test with [Number.isNaN].  With every
    field absent the score is 48. *)
Theorem computeIoiFromMarine_nan_period :
  computeIoiFromMarine
    (snapshot64 (Some (Binary64.of_Z 1)) (Some (Binary64.of_Z 10)) (Some PrimFloat.nan))
  = Some PrimFloat.nan
  /\ computeIoiFromMarine (snapshot64 None None None) = Some (Binary64.of_Z 48).
Proof. split; vm_compute; reflexivity. Qed.

(** C7 (the code departs from it).  With the swell period held at NaN,
    the scores at wave heights 1 and 2 are both NaN, and [NaN <= NaN] is
    false: the score at the larger height is not below or equal to the
    score at the smaller one. *)
Theorem computeIoiFromMarine_nan_period_order :
  let low := snapshot64 (Some (Binary64.of_Z 1)) (Some (Binary64.of_Z 10))
               (Some PrimFloat.nan) in
  let high := snapshot64 (Some (Binary64.of_Z 2)) (Some (Binary64.of_Z 10))
                (Some PrimFloat.nan) in
  le (Binary64.of_Z 1) (Binary64.of_Z 2) = true
  /\ computeIoiFromMarine low = Some PrimFloat.nan
  /\ computeIoiFromMarine high = Some PrimFloat.nan
  /\ le (nullishOr (computeIoiFromMarine high) (lit 50))
        (nullishOr (computeIoiFromMarine low) (lit 50)) = false.
Proof. cbv zeta. repeat split; vm_compute; reflexivity. Qed.

(** *** Rounding

    A swell period of 12 s and nothing else: the sub-scores are 1/2, 1/2
    and 1, and their weighted sum is 0.575 on paper.  The engine's sum of
    the three rounded products lies just below it, so that [Math.round]
    gives 57 where the rationals give 58. *)
Example computeIoiFromMarine_rounds_down :
  computeIoiFromMarine (snapshot64 None None (Some (Binary64.of_Z 12)))
  = Some (Binary64.of_Z 57)
  /\ computeIoiFromMarine
       {| hs := None; windKt := None; swellPeriod := Some (Exact.Fin 12); ioi := None |}
     = Some (Exact.Fin 58).
Proof. split; vm_compute; reflexivity. Qed.

(** *** The schedule-only derivation *)

(** The derivation as the specification words it: feet to metres by the
    factor 0.3048. *)
Definition deriveVoyageIoi_by_factor {num : Type} `{Ops num}
    (voyage : VoyageRecord num) : num :=
  let hs := mul (swellFt voyage) (lit 0.3048) in
  let snapshot :=
    {| hs := Some hs;
       windKt := Some (voyageWindKt voyage);
       swellPeriod := Some (lit 8);
       ioi := None |} in
  nullishOr (computeIoiFromMarine snapshot) (lit 50).

Definition voyage64 (swell wind : float) : VoyageRecord float :=
  {| id := "70th"; cargo := "Dune Sand"; etd := ""; eta := "";
     voyageStatus := "Scheduled"; origin := "MW4"; destination := "AGI";
     swellFt := swell; voyageWindKt := wind |}.

(** C9 as stated fails: a voyage with a swell of 5.5446195 ft and 10 kt of
    wind is scored 81; with the factor 0.3048 it would be scored 80. *)
Lemma deriveVoyageIoi_not_by_factor :
  let voyage := voyage64 (Binary64.literal 5.5446195) (Binary64.of_Z 10) in
  deriveVoyageIoi voyage = Binary64.of_Z 81
  /\ deriveVoyageIoi_by_factor voyage = Binary64.of_Z 80
  /\ deriveVoyageIoi voyage <> deriveVoyageIoi_by_factor voyage.
Proof.
  cbv zeta. split; [vm_compute; reflexivity|]. split; [vm_compute; reflexivity|].
  intros H.
  apply (f_equal (fun x => PrimFloat.eqb x (Binary64.of_Z 80))) in H.
  vm_compute in H. discriminate.
Qed.

(** C9 as the code has it.  [deriveVoyageIoi] divides the swell height in
    feet by 3.28084, takes the voyage's wind, assumes a period of 8 s and
    returns what [computeIoiFromMarine] yields for that snapshot; the
    scorer always yields a value, so the fallback 50 is never taken.  The
    quotient is the product by 0.3048 only approximately: in exact
    arithmetic it is smaller by the 102526250th part of the height. *)
Theorem deriveVoyageIoi_conversion :
  (forall (num : Type) (O : Ops num) (voyage : VoyageRecord num),
      exists score,
        computeIoiFromMarine
          {| hs := Some (div (swellFt voyage) (lit 3.28084));
             windKt := Some (voyageWindKt voyage);
             swellPeriod := Some (lit 8);
             ioi := None |}
        = Some score
        /\ deriveVoyageIoi voyage = score)
  /\ (forall ft : Q,
        exists metres,
          div (Exact.Fin ft) (lit 3.28084) = Exact.Fin metres
          /\ ft * 0.3048 - metres == ft / 102526250).
Proof.
  split.
  - intros num O voyage. eexists. split; reflexivity.
  - intros ft. eexists. split; [reflexivity|]. field.
Qed.

End IoiFacts.

(** ** The report route *)

Module ReportFacts.
Import Js Http Notifier Report.

Definition badGateway (e : Thrown) (fallback : string) : HttpResponse :=
  {| responseStatus := 502; responseBody := Failure false (messageOf e fallback) |}.

(** The options the handler passes to the two senders. *)
Definition slackOptionsFor (sample : string) (slot : ReportSlot) (timezone : string)
    : SlackOptions :=
  {| message := slackMessage sample slot timezone;
     webhookUrl := None;
     slackFetchImpl := None |}.

Definition emailOptionsFor (vesselName sample : string) (slot : ReportSlot)
    (timezone : string) : EmailOptions :=
  {| subject := emailSubject vesselName slot timezone;
     text := sample;
     to := None;
     from := None;
     apiKey := None;
     emailFetchImpl := None |}.

(** [vesselData?.vessel?.name ?? "Vessel"], the value written into the
    subject. *)
Definition vesselNameOf (vesselData : Json) : Json :=
  orElse (prop "name" (prop "vessel" vesselData)) (JStr "Vessel").

(** The record and the response of a pass that reaches its end with the two
    results [sent]. *)
Definition recordOf (host : Host) (now : Z) (slot : ReportSlot) (timezone sample : string)
    (sent : list NotifyResult) : LastReportMeta :=
  {| slot := slot;
     generatedAt := toISOString host now;
     timezone := timezone;
     sample := sample;
     sent := sent |}.

Definition reportOf (host : Host) (now : Z) (vesselData marineSnapshot : Json)
    (slot : ReportSlot) (timezone sample : string) (sent : list NotifyResult)
    : HttpResponse :=
  {| responseStatus := 200;
     responseBody :=
       Report (anyOk sent) slot (toISOString host now) timezone sample sent
         (orElse (length (prop "schedule" vesselData)) (JNum PrimFloat.zero))
         (if truthy marineSnapshot
          then JObj [("port", orElse (prop "port" marineSnapshot) JNull)]
          else JObj [("error", JStr "n/a")])
         (REPORT_SLOTS slot) |}.

(** What a preview answers for a stored record. *)
Definition previewOfRecord (timezone : string) (record : LastReportMeta) : HttpResponse :=
  {| responseStatus := 200;
     responseBody :=
       Preview (anyOk (sent record)) (Some (generatedAt record)) (Some (slot record))
         timezone (Some (sample record)) (sent record) |}.

Definition placeholderLine : string := "[Marine Snapshot] 데이터 없음".

(** [typeof j === "string"]. *)
Definition isString (j : Json) : bool :=
  match j with JStr _ => true | _ => false end.

Section Pass.
Variable host : Host.
Variable env : ProcessEnv.
Variable fetch : Fetch.
Variable now : Z.
Variable request : ReportRequest.
Variable w : World.
Hypothesis not_preview : previewParam request = false.

Lemma fetchJson_rejected (u : URL) (log : list Request) (e : Thrown) :
  fetch log (getRequest u) = Rejected e ->
  runState (fetchJson fetch u) log = (inr e, (log ++ [getRequest u])%list).
Proof. intros H. unfold fetchJson. cbn. rewrite H. reflexivity. Qed.

Lemma fetchJson_status (u : URL) (log : list Request) (response : Response) :
  fetch log (getRequest u) = Resolved response ->
  Http.ok response = false ->
  runState (fetchJson fetch u) log
  = (inr (ThrownError ("Failed to fetch " ++ pathname u ++ ": "
                         ++ JsString.decimal (status response))),
     (log ++ [getRequest u])%list).
Proof. intros H Hok. unfold fetchJson. cbn. rewrite H, Hok. reflexivity. Qed.

Lemma fetchJson_parsed (u : URL) (log : list Request) (response : Response) :
  fetch log (getRequest u) = Resolved response ->
  Http.ok response = true ->
  runState (fetchJson fetch u) log = (json response, (log ++ [getRequest u])%list).
Proof. intros H Hok. unfold fetchJson. cbn. rewrite H, Hok. reflexivity. Qed.

Lemma fetchBriefing_rejected (vesselData : Json) (log : list Request) (e : Thrown) :
  fetch log (briefingRequest host now request vesselData) = Rejected e ->
  runState (fetchBriefing host fetch now request vesselData) log
  = (inr e, (log ++ [briefingRequest host now request vesselData])%list).
Proof. intros H. unfold fetchBriefing. cbn. rewrite H. reflexivity. Qed.

Lemma fetchBriefing_status (vesselData : Json) (log : list Request) (response : Response) :
  fetch log (briefingRequest host now request vesselData) = Resolved response ->
  Http.ok response = false ->
  runState (fetchBriefing host fetch now request vesselData) log
  = (inr (ThrownError ("Briefing route responded " ++ JsString.decimal (status response))),
     (log ++ [briefingRequest host now request vesselData])%list).
Proof. intros H Hok. unfold fetchBriefing. cbn. rewrite H, Hok. reflexivity. Qed.

(** A narrative body that parses is kept as it is, whatever its [briefing]
    holds. *)
Lemma fetchBriefing_parsed (vesselData : Json) (log : list Request) (response : Response)
    (data : Json) :
  fetch log (briefingRequest host now request vesselData) = Resolved response ->
  Http.ok response = true ->
  json response = inl data ->
  runState (fetchBriefing host fetch now request vesselData) log
  = (inl (orElse (prop "briefing" data) (JStr "")),
     (log ++ [briefingRequest host now request vesselData])%list).
Proof. intros H Hok Hj. unfold fetchBriefing. cbn. rewrite H, Hok, Hj. reflexivity. Qed.

(** A marine fetch that fails leaves null. *)
Lemma fetchMarine_failed (vesselData : Json) (log log' : list Request) (encoded : string)
    (e : Thrown) :
  encodeURIComponent host
    (orElse (prop "port" (prop "vessel" vesselData)) (JStr VESSEL_DATASET_vessel_port))
  = Some encoded ->
  runState (fetchJson fetch (relativeUrl request "/api/marine" ("?port=" ++ encoded))) log
  = (inr e, log') ->
  runState (fetchMarine host fetch request vesselData) log = (JNull, log').
Proof.
  intros He Hf. unfold fetchMarine. rewrite He.
  cbn [bind Monad_state runState]. rewrite Hf. reflexivity.
Qed.

Ltac step :=
  cbn [bind ret Monad_state runState liftNet calls lastReport fst snd
       NextResponse_json throw].

Lemma GET_vessel_fails (e : Thrown) (log1 : list Request) :
  runState (fetchJson fetch (relativeUrl request "/api/vessel" "")) (calls w) = (inr e, log1) ->
  runState (GET host env fetch now request) w
  = (Responded (badGateway e "Failed to fetch vessel data"),
     {| calls := log1; lastReport := lastReport w |}).
Proof.
  intros Hv. unfold GET. rewrite not_preview. step. rewrite Hv. reflexivity.
Qed.

(** The slot is resolved between the vessel fetch and the marine fetch, and
    what [Intl.DateTimeFormat] throws leaves the handler there. *)
Lemma GET_slot_throws (vesselData : Json) (thrown : Exception) (log1 : list Request) :
  runState (fetchJson fetch (relativeUrl request "/api/vessel" "")) (calls w)
  = (inl vesselData, log1) ->
  normaliseSlot host (slotParam request) now (resolveTimezone env) = inr thrown ->
  runState (GET host env fetch now request) w
  = (Threw thrown, {| calls := log1; lastReport := lastReport w |}).
Proof.
  intros Hv Hs. unfold GET. rewrite not_preview. step. rewrite Hv. step.
  rewrite Hs. reflexivity.
Qed.

Lemma GET_briefing_fails (vesselData marine : Json) (slot : ReportSlot) (e : Thrown)
    (log1 log2 log3 : list Request) :
  runState (fetchJson fetch (relativeUrl request "/api/vessel" "")) (calls w)
  = (inl vesselData, log1) ->
  normaliseSlot host (slotParam request) now (resolveTimezone env) = inl slot ->
  runState (fetchMarine host fetch request vesselData) log1 = (marine, log2) ->
  runState (fetchBriefing host fetch now request vesselData) log2 = (inr e, log3) ->
  runState (GET host env fetch now request) w
  = (Responded (badGateway e "Failed to generate briefing"),
     {| calls := log3; lastReport := lastReport w |}).
Proof.
  intros Hv Hs Hm Hb. unfold GET. rewrite not_preview. step. rewrite Hv. step.
  rewrite Hs. step. rewrite Hm. step. rewrite Hb. reflexivity.
Qed.

(** A [briefing] that is not a string has no [trim]: the handler throws
    after the narrative fetch, before either channel is called. *)
Lemma GET_briefing_not_text (vesselData marine briefing : Json) (slot : ReportSlot)
    (log1 log2 log3 : list Request) :
  runState (fetchJson fetch (relativeUrl request "/api/vessel" "")) (calls w)
  = (inl vesselData, log1) ->
  normaliseSlot host (slotParam request) now (resolveTimezone env) = inl slot ->
  runState (fetchMarine host fetch request vesselData) log1 = (marine, log2) ->
  runState (fetchBriefing host fetch now request vesselData) log2 = (inl briefing, log3) ->
  isString briefing = false ->
  runState (GET host env fetch now request) w
  = (Threw TypeError, {| calls := log3; lastReport := lastReport w |}).
Proof.
  intros Hv Hs Hm Hb Ht. unfold GET. rewrite not_preview. step. rewrite Hv. step.
  rewrite Hs. step. rewrite Hm. step. rewrite Hb.
  destruct briefing; try discriminate Ht; reflexivity.
Qed.

(** The subject is built after the Slack call has been awaited: a name that
    cannot be converted leaves the handler with that call made, the email
    call not made and nothing stored. *)
Lemma GET_name_throws (vesselData marine : Json) (briefing : string) (slot : ReportSlot)
    (thrown : Exception) (log1 log2 log3 : list Request) :
  runState (fetchJson fetch (relativeUrl request "/api/vessel" "")) (calls w)
  = (inl vesselData, log1) ->
  normaliseSlot host (slotParam request) now (resolveTimezone env) = inl slot ->
  runState (fetchMarine host fetch request vesselData) log1 = (marine, log2) ->
  runState (fetchBriefing host fetch now request vesselData) log2
  = (inl (JStr briefing), log3) ->
  interpolate host (vesselNameOf vesselData) = inr thrown ->
  let timezone := resolveTimezone env in
  let sample := composeSample host briefing marine in
  let slackRun := runState (sendSlack env fetch (slackOptionsFor sample slot timezone)) log3 in
  runState (GET host env fetch now request) w
  = (Threw thrown, {| calls := snd slackRun; lastReport := lastReport w |}).
Proof.
  intros Hv Hs Hm Hb Hn. cbv zeta. unfold GET. rewrite not_preview. step. rewrite Hv. step.
  rewrite Hs. step. rewrite Hm. step. rewrite Hb. step.
  unfold slackOptionsFor, vesselNameOf in *.
  destruct (runState (sendSlack env fetch _) log3) as [slackResult log4].
  step. rewrite Hn. reflexivity.
Qed.

Lemma GET_completes (vesselData marine : Json) (briefing vesselName : string)
    (slot : ReportSlot) (log1 log2 log3 : list Request) :
  runState (fetchJson fetch (relativeUrl request "/api/vessel" "")) (calls w)
  = (inl vesselData, log1) ->
  normaliseSlot host (slotParam request) now (resolveTimezone env) = inl slot ->
  runState (fetchMarine host fetch request vesselData) log1 = (marine, log2) ->
  runState (fetchBriefing host fetch now request vesselData) log2
  = (inl (JStr briefing), log3) ->
  interpolate host (vesselNameOf vesselData) = inl vesselName ->
  let timezone := resolveTimezone env in
  let sample := composeSample host briefing marine in
  let slackRun := runState (sendSlack env fetch (slackOptionsFor sample slot timezone)) log3 in
  let emailRun :=
    runState (sendEmail env fetch (emailOptionsFor vesselName sample slot timezone))
      (snd slackRun) in
  let sent := [fst slackRun; fst emailRun] in
  runState (GET host env fetch now request) w
  = (Responded (reportOf host now vesselData marine slot timezone sample sent),
     {| calls := snd emailRun;
        lastReport := Some (recordOf host now slot timezone sample sent) |}).
Proof.
  intros Hv Hs Hm Hb Hn. cbv zeta. unfold GET. rewrite not_preview. step. rewrite Hv. step.
  rewrite Hs. step. rewrite Hm. step. rewrite Hb. step.
  unfold slackOptionsFor, emailOptionsFor, vesselNameOf in *.
  destruct (runState (sendSlack env fetch _) log3) as [slackResult log4].
  step. rewrite Hn. step.
  destruct (runState (sendEmail env fetch _) log4) as [emailResult log5].
  reflexivity.
Qed.

End Pass.

Lemma anyOk_spec (sent : list NotifyResult) :
  anyOk sent = true <-> exists entry, In entry sent /\ Notifier.ok entry = true.
Proof. unfold anyOk. apply existsb_exists. Qed.

Lemma GET_preview host env fetch now request w :
  previewParam request = true ->
  runState (GET host env fetch now request) w
  = (Responded
       {| responseStatus := 200;
          responseBody :=
            Preview (nullishOr (option_map (fun r => anyOk (sent r)) (lastReport w)) false)
              (option_map generatedAt (lastReport w))
              (option_map slot (lastReport w))
              (resolveTimezone env)
              (option_map sample (lastReport w))
              (nullishOr (option_map sent (lastReport w)) []) |}, w).
Proof. intros Hp. unfold GET. rewrite Hp. reflexivity. Qed.

(** *** Example data: the scenario of the route's tests *)

Definition sampleHost : Host :=
  {| toISOString := fun _ => "2025-09-28T02:00:00.000Z";
     localHour := fun _ _ => inl 6%Z;
     encodeURIComponent := fun j => match j with JStr s => Some s | _ => None end;
     ToString :=
       fun j =>
         match j with
         | JObj fields =>
             match lookup "toString" fields with
             | JUndefined => inl "[object Object]"
             | _ => inr TypeError
             end
         | JBool true => inl "true"
         | JBool false => inl "false"
         | _ => inl ""
         end;
     numberToString := fun _ => "" |}.

Definition emptyEnv : ProcessEnv :=
  {| SLACK_WEBHOOK_URL := None;
     RESEND_API_KEY := None;
     REPORT_SENDER := None;
     REPORT_RECIPIENTS := None;
     REPORT_TIMEZONE := None |}.

Definition narrative : string := "Headline" ++ JsString.LF ++ "Body".

Definition scenarioSnapshot : Json :=
  JObj [("hs", JNum (Binary64.literal 1.2)); ("windKt", JNum (Binary64.literal 15.4))].

Definition respond (j : Json) : FetchResult :=
  Resolved {| status := 200; json := inl j |}.

(** Vessel "X", the scenario's marine snapshot and narrative; every other
    request is refused. *)
Definition scenarioNetwork : Fetch :=
  fun _ req =>
    if String.eqb (url req) "http://localhost/api/vessel"
    then respond (JObj [("vessel", JObj [("name", JStr "X")])])
    else if String.eqb (url req) "http://localhost/api/marine?port=Jebel Ali"
    then respond scenarioSnapshot
    else if String.eqb (url req) "http://localhost/api/briefing"
    then respond (JObj [("briefing", JStr narrative)])
    else Rejected (ThrownError "fetch failed").

(** The same, with the marine route answering 503. *)
Definition marineDownNetwork : Fetch :=
  fun log req =>
    if String.eqb (url req) "http://localhost/api/marine?port=Jebel Ali"
    then Resolved {| status := 503; json := inl JNull |}
    else scenarioNetwork log req.

(** The scenario with a narrative route that answers 200 with the body
    {briefing: 42}. *)
Definition numericBriefingNetwork : Fetch :=
  fun log req =>
    if String.eqb (url req) "http://localhost/api/briefing"
    then respond (JObj [("briefing", JNum (Binary64.of_Z 42))])
    else scenarioNetwork log req.

(** The same body, with the marine route answering 503. *)
Definition marineDownNumericBriefingNetwork : Fetch :=
  fun log req =>
    if String.eqb (url req) "http://localhost/api/briefing"
    then respond (JObj [("briefing", JNum (Binary64.of_Z 42))])
    else marineDownNetwork log req.

Definition scenarioRequest : ReportRequest :=
  {| requestOrigin := "http://localhost"; previewParam := false; slotParam := None |}.

Definition freshWorld : World := {| calls := []; lastReport := None |}.

(** The three requests of a pass that reaches the narrative. *)
Definition scenarioVesselRequest : Request :=
  getRequest (relativeUrl scenarioRequest "/api/vessel" "").

Definition scenarioMarineRequest : Request :=
  getRequest (relativeUrl scenarioRequest "/api/marine" "?port=Jebel Ali").

Definition scenarioBriefingRequest : Request :=
  briefingRequest sampleHost 0 scenarioRequest (JObj [("vessel", JObj [("name", JStr "X")])]).

(** With nothing configured both sends fail, each with its own error, and
    the pass still answers 200, with [ok] false. *)
Example GET_nothing_configured :
  fst (runState (GET sampleHost emptyEnv scenarioNetwork 0 scenarioRequest) freshWorld)
  = Responded
      {| responseStatus := 200;
         responseBody :=
           Report false am "2025-09-28T02:00:00.000Z" "Asia/Dubai"
             (narrative ++ JsString.LF ++ JsString.LF
              ++ "[Marine Snapshot] Hs 1.20 m · Wind 15.40 kt · IOI n/a")
             [failure slack "Missing Slack webhook URL";
              failure email "Missing email recipients"]
             (JNum PrimFloat.zero) (JObj [("port", JNull)]) "06:00" |}.
Proof. vm_compute. reflexivity. Qed.

(** *** The claims about the route *)

(** C1 as stated fails: a pass can find both mandatory fetches succeeding
    and still leave no record and no response.  In the scenario with the
    narrative route answering 200 with the body {briefing: 42}, the vessel
    fetch and the narrative fetch both succeed, the handler throws
    TypeError with three requests made, none of them to a channel, and the
    store is as empty as it was. *)
Lemma GET_numeric_briefing_stores_nothing :
  fst (runState (fetchJson numericBriefingNetwork
                   (relativeUrl scenarioRequest "/api/vessel" "")) [])
  = inl (JObj [("vessel", JObj [("name", JStr "X")])])
  /\ fst (runState (fetchBriefing sampleHost numericBriefingNetwork 0 scenarioRequest
                      (JObj [("vessel", JObj [("name", JStr "X")])]))
            [scenarioVesselRequest; scenarioMarineRequest])
     = inl (JNum (Binary64.of_Z 42))
  /\ runState (GET sampleHost emptyEnv numericBriefingNetwork 0 scenarioRequest) freshWorld
     = (Threw TypeError,
        {| calls := [scenarioVesselRequest; scenarioMarineRequest; scenarioBriefingRequest];
           lastReport := None |})
  /\ ~ (exists response record,
          fst (runState (GET sampleHost emptyEnv numericBriefingNetwork 0 scenarioRequest)
                 freshWorld)
          = Responded response
          /\ lastReport (snd (runState (GET sampleHost emptyEnv numericBriefingNetwork 0
                                          scenarioRequest) freshWorld))
             = Some record).
Proof.
  split; [vm_compute; reflexivity|].
  split; [vm_compute; reflexivity|].
  assert (E : runState (GET sampleHost emptyEnv numericBriefingNetwork 0 scenarioRequest)
                freshWorld
              = (Threw TypeError,
                 {| calls := [scenarioVesselRequest; scenarioMarineRequest;
                              scenarioBriefingRequest];
                    lastReport := None |})) by (vm_compute; reflexivity).
  split; [exact E|].
  intros (response & record & R & _). rewrite E in R. discriminate R.
Qed.

(** C1 as the code has it.  In a pass whose vessel fetch and narrative fetch
    both succeed, the handler reaches its end exactly when the slot
    resolves, the narrative's [briefing] is a string and the vessel's name
    converts to a string.  Then the record it stores holds exactly two
    results, the one [sendSlack] returned in this pass followed by the one
    [sendEmail] returned, the first tagged slack and the second email
    whatever became of the two sends; the [ok] of the response is true
    exactly when one of the two is ok, and so is the [ok] that a later
    preview reports for the stored record.  In every other case the handler
    throws, answers nothing and leaves the stored record as it was. *)
Theorem GET_sent_and_ok host env fetch now request w
    (vesselData marine briefing : Json) (log1 log2 log3 : list Request) :
  previewParam request = false ->
  runState (fetchJson fetch (relativeUrl request "/api/vessel" "")) (calls w)
  = (inl vesselData, log1) ->
  runState (fetchMarine host fetch request vesselData) log1 = (marine, log2) ->
  runState (fetchBriefing host fetch now request vesselData) log2 = (inl briefing, log3) ->
  let timezone := resolveTimezone env in
  let run := runState (GET host env fetch now request) w in
  (forall slot text vesselName,
      normaliseSlot host (slotParam request) now timezone = inl slot ->
      briefing = JStr text ->
      interpolate host (vesselNameOf vesselData) = inl vesselName ->
      let sample := composeSample host text marine in
      let slackRun :=
        runState (sendSlack env fetch (slackOptionsFor sample slot timezone)) log3 in
      let emailRun :=
        runState (sendEmail env fetch (emailOptionsFor vesselName sample slot timezone))
          (snd slackRun) in
      let sent := [fst slackRun; fst emailRun] in
      let record := recordOf host now slot timezone sample sent in
      run = (Responded (reportOf host now vesselData marine slot timezone sample sent),
             {| calls := snd emailRun; lastReport := Some record |})
      /\ Report.sent record = [fst slackRun; fst emailRun]
      /\ channel (fst slackRun) = slack
      /\ channel (fst emailRun) = email
      /\ (anyOk sent = true
          <-> Notifier.ok (fst slackRun) = true \/ Notifier.ok (fst emailRun) = true)
      /\ (forall fetch' now' request', previewParam request' = true ->
          fst (runState (GET host env fetch' now' request') (snd run))
          = Responded (previewOfRecord timezone record)))
  /\ ((exists thrown, normaliseSlot host (slotParam request) now timezone = inr thrown)
      \/ isString briefing = false
      \/ (exists thrown, interpolate host (vesselNameOf vesselData) = inr thrown) ->
      exists thrown,
        fst run = Threw thrown /\ lastReport (snd run) = lastReport w).
Proof.
  intros Hp Hv Hm Hb. cbv zeta. split.
  - intros slot text vesselName Hs -> Hn.
    pose proof (GET_completes host env fetch now request w Hp _ _ _ _ _ _ _ _
                  Hv Hs Hm Hb Hn) as E.
    cbv zeta in E. rewrite E. cbn [fst snd].
    split; [reflexivity|]. split; [reflexivity|].
    split; [apply NotifierFacts.sendSlack_channel|].
    split; [apply NotifierFacts.sendEmail_channel|].
    split.
    + unfold anyOk. cbn [existsb]. rewrite orb_false_r. apply orb_true_iff.
    + intros fetch' now' request' Hp'. rewrite (GET_preview _ _ _ _ _ _ Hp').
      reflexivity.
  - destruct (normaliseSlot host (slotParam request) now (resolveTimezone env))
      as [slot|thrown] eqn:Hs.
    + destruct (isString briefing) eqn:Ht.
      * destruct briefing as [| | | |text| |]; try discriminate Ht.
        destruct (interpolate host (vesselNameOf vesselData)) as [vesselName|thrown] eqn:Hn.
        -- intros [(thrown & H) | [H | (thrown & H)]]; discriminate H.
        -- intros _.
           pose proof (GET_name_throws host env fetch now request w Hp _ _ _ _ _ _ _ _
                         Hv Hs Hm Hb Hn) as E.
           cbv zeta in E. rewrite E. exists thrown. split; reflexivity.
      * intros _.
        rewrite (GET_briefing_not_text host env fetch now request w Hp _ _ _ _ _ _ _
                   Hv Hs Hm Hb Ht).
        exists TypeError. split; reflexivity.
    + intros _. rewrite (GET_slot_throws host env fetch now request w Hp _ _ _ Hv Hs).
      exists thrown. split; reflexivity.
Qed.

Lemma GET_sent_and_ok_witness :
  runState (GET sampleHost emptyEnv scenarioNetwork 0 scenarioRequest) freshWorld
  = (Responded
       (reportOf sampleHost 0 (JObj [("vessel", JObj [("name", JStr "X")])])
          scenarioSnapshot am "Asia/Dubai"
          (composeSample sampleHost narrative scenarioSnapshot)
          [failure slack "Missing Slack webhook URL";
           failure email "Missing email recipients"]),
     {| calls := [scenarioVesselRequest; scenarioMarineRequest; scenarioBriefingRequest];
        lastReport :=
          Some (recordOf sampleHost 0 am "Asia/Dubai"
                  (composeSample sampleHost narrative scenarioSnapshot)
                  [failure slack "Missing Slack webhook URL";
                   failure email "Missing email recipients"]) |}).
Proof.
  destruct (GET_sent_and_ok sampleHost emptyEnv scenarioNetwork 0%Z scenarioRequest freshWorld
              (JObj [("vessel", JObj [("name", JStr "X")])]) scenarioSnapshot (JStr narrative)
              [scenarioVesselRequest]
              [scenarioVesselRequest; scenarioMarineRequest]
              [scenarioVesselRequest; scenarioMarineRequest; scenarioBriefingRequest]
              eq_refl eq_refl eq_refl eq_refl) as (H & _).
  destruct (H am narrative "X" eq_refl eq_refl eq_refl) as (E & _).
  exact E.
Defined.

(** C4 as stated fails: with only the marine fetch failing the pass need not
    complete.  In the scenario with the marine route answering 503 and the
    narrative route answering 200 with the body {briefing: 42}, the marine
    failure is swallowed, the vessel fetch and the narrative fetch succeed,
    and the handler throws TypeError: no response, no text, no record. *)
Lemma GET_marine_down_numeric_briefing_throws :
  fst (runState (fetchJson marineDownNumericBriefingNetwork
                   (relativeUrl scenarioRequest "/api/vessel" "")) [])
  = inl (JObj [("vessel", JObj [("name", JStr "X")])])
  /\ runState (fetchMarine sampleHost marineDownNumericBriefingNetwork scenarioRequest
                 (JObj [("vessel", JObj [("name", JStr "X")])]))
       [scenarioVesselRequest]
     = (JNull, [scenarioVesselRequest; scenarioMarineRequest])
  /\ fst (runState (fetchBriefing sampleHost marineDownNumericBriefingNetwork 0
                      scenarioRequest (JObj [("vessel", JObj [("name", JStr "X")])]))
            [scenarioVesselRequest; scenarioMarineRequest])
     = inl (JNum (Binary64.of_Z 42))
  /\ runState (GET sampleHost emptyEnv marineDownNumericBriefingNetwork 0 scenarioRequest)
       freshWorld
     = (Threw TypeError,
        {| calls := [scenarioVesselRequest; scenarioMarineRequest; scenarioBriefingRequest];
           lastReport := None |})
  /\ ~ (exists response,
          fst (runState (GET sampleHost emptyEnv marineDownNumericBriefingNetwork 0
                           scenarioRequest) freshWorld)
          = Responded response).
Proof.
  split; [vm_compute; reflexivity|].
  split; [vm_compute; reflexivity|].
  split; [vm_compute; reflexivity|].
  assert (E : runState (GET sampleHost emptyEnv marineDownNumericBriefingNetwork 0
                          scenarioRequest) freshWorld
              = (Threw TypeError,
                 {| calls := [scenarioVesselRequest; scenarioMarineRequest;
                              scenarioBriefingRequest];
                    lastReport := None |})) by (vm_compute; reflexivity).
  split; [exact E|].
  intros (response & R). rewrite E in R. discriminate R.
Qed.

(** C4 as the code has it.  A pass that is not a preview: if the vessel
    fetch fails, the handler answers 502 with one error message and
    [lastReport] is what it was; so it does if the narrative fetch fails,
    which is attempted once the slot has resolved; a network error and a
    non-success status are such failures.  If the marine fetch fails, the
    snapshot is null; with the narrative's [briefing] a string and the
    vessel's name convertible, the text then ends with the placeholder
    line, and the pass answers 200 and stores its record.  Where the slot
    does not resolve, the [briefing] is not a string or the name does not
    convert, the handler throws instead: it answers nothing and
    [lastReport] is what it was. *)
Theorem GET_failure_policy host env fetch now request w :
  previewParam request = false ->
  let vesselUrl := relativeUrl request "/api/vessel" "" in
  let timezone := resolveTimezone env in
  let run := runState (GET host env fetch now request) w in
  (* the vessel fetch fails *)
  (forall e log1,
      runState (fetchJson fetch vesselUrl) (calls w) = (inr e, log1) ->
      run = (Responded (badGateway e "Failed to fetch vessel data"),
             {| calls := log1; lastReport := lastReport w |}))
  /\ (forall e, fetch (calls w) (getRequest vesselUrl) = Rejected e ->
        fst (runState (fetchJson fetch vesselUrl) (calls w)) = inr e)
  /\ (forall response, fetch (calls w) (getRequest vesselUrl) = Resolved response ->
        Http.ok response = false ->
        exists e, fst (runState (fetchJson fetch vesselUrl) (calls w)) = inr e)
  /\ (forall vesselData log1,
        runState (fetchJson fetch vesselUrl) (calls w) = (inl vesselData, log1) ->
        (* the slot does not resolve: neither fetch is attempted *)
        (forall thrown,
            normaliseSlot host (slotParam request) now timezone = inr thrown ->
            run = (Threw thrown, {| calls := log1; lastReport := lastReport w |}))
        /\ (forall slot marine log2,
              normaliseSlot host (slotParam request) now timezone = inl slot ->
              runState (fetchMarine host fetch request vesselData) log1 = (marine, log2) ->
              let narrativeRequest := briefingRequest host now request vesselData in
              (* the narrative fetch fails *)
              (forall e log3,
                  runState (fetchBriefing host fetch now request vesselData) log2
                  = (inr e, log3) ->
                  run = (Responded (badGateway e "Failed to generate briefing"),
                         {| calls := log3; lastReport := lastReport w |}))
              /\ (forall e, fetch log2 narrativeRequest = Rejected e ->
                    fst (runState (fetchBriefing host fetch now request vesselData) log2)
                    = inr e)
              /\ (forall response, fetch log2 narrativeRequest = Resolved response ->
                    Http.ok response = false ->
                    exists e,
                      fst (runState (fetchBriefing host fetch now request vesselData) log2)
                      = inr e)
              (* only the marine fetch fails *)
              /\ (forall encoded,
                    encodeURIComponent host
                      (orElse (prop "port" (prop "vessel" vesselData))
                              (JStr VESSEL_DATASET_vessel_port)) = Some encoded ->
                    let marineRequest :=
                      getRequest (relativeUrl request "/api/marine" ("?port=" ++ encoded)) in
                    (exists e, fetch log1 marineRequest = Rejected e)
                    \/ (exists response, fetch log1 marineRequest = Resolved response
                                         /\ Http.ok response = false) ->
                    marine = JNull)
              /\ (forall briefing vesselName log3,
                    marine = JNull ->
                    runState (fetchBriefing host fetch now request vesselData) log2
                    = (inl (JStr briefing), log3) ->
                    interpolate host (vesselNameOf vesselData) = inl vesselName ->
                    let text := JsString.trim briefing ++ JsString.LF ++ JsString.LF
                                ++ placeholderLine in
                    let slackRun :=
                      runState (sendSlack env fetch (slackOptionsFor text slot timezone))
                        log3 in
                    let emailRun :=
                      runState (sendEmail env fetch
                                  (emailOptionsFor vesselName text slot timezone))
                        (snd slackRun) in
                    let sent := [fst slackRun; fst emailRun] in
                    run = (Responded
                             (reportOf host now vesselData JNull slot timezone text sent),
                           {| calls := snd emailRun;
                              lastReport :=
                                Some (recordOf host now slot timezone text sent) |}))
              (* the handler throws on what the narrative or the vessel holds *)
              /\ (forall briefing log3,
                    runState (fetchBriefing host fetch now request vesselData) log2
                    = (inl briefing, log3) ->
                    isString briefing = false ->
                    run = (Threw TypeError,
                           {| calls := log3; lastReport := lastReport w |}))
              /\ (forall briefing thrown log3,
                    runState (fetchBriefing host fetch now request vesselData) log2
                    = (inl (JStr briefing), log3) ->
                    interpolate host (vesselNameOf vesselData) = inr thrown ->
                    fst run = Threw thrown /\ lastReport (snd run) = lastReport w))).
Proof.
  intros Hp. cbv zeta.
  split; [intros e log1; apply GET_vessel_fails; exact Hp|].
  split; [intros e H; now rewrite (fetchJson_rejected _ _ _ _ H)|].
  split; [intros response H Hok; rewrite (fetchJson_status _ _ _ _ H Hok); eexists; reflexivity|].
  intros vesselData log1 Hv.
  split; [intros thrown Hs; now apply GET_slot_throws with (vesselData := vesselData)|].
  intros slot marine log2 Hs Hm.
  split; [intros e log3 Hb;
          exact (GET_briefing_fails host env fetch now request w Hp _ _ _ _ _ _ _
                   Hv Hs Hm Hb)|].
  split; [intros e H; now rewrite (fetchBriefing_rejected _ _ _ _ _ _ _ H)|].
  split; [intros response H Hok; rewrite (fetchBriefing_status _ _ _ _ _ _ _ H Hok);
          eexists; reflexivity|].
  split.
  { intros encoded He [(e & Hf) | (response & Hf & Hok)].
    - rewrite (fetchMarine_failed _ _ _ _ _ _ _ _ He (fetchJson_rejected _ _ _ _ Hf)) in Hm.
      congruence.
    - rewrite (fetchMarine_failed _ _ _ _ _ _ _ _ He (fetchJson_status _ _ _ _ Hf Hok)) in Hm.
      congruence. }
  split.
  { intros briefing vesselName log3 -> Hb Hn.
    exact (GET_completes host env fetch now request w Hp _ _ _ _ _ _ _ _ Hv Hs Hm Hb Hn). }
  split.
  { intros briefing log3 Hb Ht.
    exact (GET_briefing_not_text host env fetch now request w Hp _ _ _ _ _ _ _
             Hv Hs Hm Hb Ht). }
  intros briefing thrown log3 Hb Hn.
  pose proof (GET_name_throws host env fetch now request w Hp _ _ _ _ _ _ _ _
                Hv Hs Hm Hb Hn) as E.
  cbv zeta in E. rewrite E. split; reflexivity.
Qed.

(** The marine route down, everything else as in the scenario. *)
Lemma GET_failure_policy_witness :
  runState (GET sampleHost emptyEnv marineDownNetwork 0 scenarioRequest) freshWorld
  = (Responded
       (reportOf sampleHost 0 (JObj [("vessel", JObj [("name", JStr "X")])]) JNull am
          "Asia/Dubai"
          ("Headline" ++ JsString.LF ++ "Body" ++ JsString.LF ++ JsString.LF
           ++ placeholderLine)
          [failure slack "Missing Slack webhook URL";
           failure email "Missing email recipients"]),
     {| calls := [scenarioVesselRequest; scenarioMarineRequest; scenarioBriefingRequest];
        lastReport :=
          Some (recordOf sampleHost 0 am "Asia/Dubai"
                  ("Headline" ++ JsString.LF ++ "Body" ++ JsString.LF ++ JsString.LF
                   ++ placeholderLine)
                  [failure slack "Missing Slack webhook URL";
                   failure email "Missing email recipients"]) |}).
Proof.
  destruct (GET_failure_policy sampleHost emptyEnv marineDownNetwork 0%Z scenarioRequest
              freshWorld eq_refl) as (_ & _ & _ & H).
  destruct (H (JObj [("vessel", JObj [("name", JStr "X")])]) [scenarioVesselRequest] eq_refl)
    as (_ & H2).
  destruct (H2 am JNull [scenarioVesselRequest; scenarioMarineRequest] eq_refl eq_refl)
    as (_ & _ & _ & _ & D & _).
  exact (D narrative "X"
           [scenarioVesselRequest; scenarioMarineRequest; scenarioBriefingRequest]
           eq_refl eq_refl eq_refl).
Defined.

(** The status of the response, if there is one. *)
Definition statusOf (outcome : Outcome) : option N :=
  match outcome with
  | Responded response => Some (responseStatus response)
  | Threw _ => None
  end.

(** The text of a completed pass. *)
Definition sampleOf (outcome : Outcome) : option string :=
  match outcome with
  | Responded {| responseBody := Report _ _ _ _ sample _ _ _ _ |} => Some sample
  | _ => None
  end.

Definition marineLinePrefix : string :=
  "[Marine Snapshot] Hs 1.20 m · Wind 15.40 kt · IOI ".

(** The scenario's snapshot with a composite index added. *)
Definition indexedSnapshot (n : N) : Json :=
  JObj [("hs", JNum (Binary64.literal 1.2));
        ("windKt", JNum (Binary64.literal 15.4));
        ("ioi", JNum (Binary64.of_Z (Z.of_N n)))].

Definition upTo100 : list N := map N.of_nat (seq 0 101).

Lemma upTo100_spec (n : N) : (n <= 100)%N -> In n upTo100.
Proof.
  intros H. unfold upTo100. apply in_map_iff. exists (N.to_nat n).
  split; [apply N2Nat.id | apply in_seq; lia].
Qed.

(** C8 as stated fails: in the scenario the route answers with the index
    "n/a", and no integer stands after "IOI". *)
Lemma GET_scenario_prints_no_index :
  sampleOf (fst (runState (GET sampleHost emptyEnv scenarioNetwork 0 scenarioRequest)
                   freshWorld))
  = Some (narrative ++ JsString.LF ++ JsString.LF ++ marineLinePrefix ++ "n/a")
  /\ ~ (exists n : N,
          (n <= 100)%N
          /\ sampleOf (fst (runState (GET sampleHost emptyEnv scenarioNetwork 0 scenarioRequest)
                              freshWorld))
             = Some (narrative ++ JsString.LF ++ JsString.LF ++ marineLinePrefix
                     ++ JsString.decimal n)).
Proof.
  split; [vm_compute; reflexivity|].
  intros (n & Hn & E).
  assert (A : forallb
                (fun k =>
                   negb (String.eqb
                           (narrative ++ JsString.LF ++ JsString.LF ++ marineLinePrefix ++ "n/a")
                           (narrative ++ JsString.LF ++ JsString.LF ++ marineLinePrefix
                            ++ JsString.decimal k)))
                upTo100 = true) by (vm_compute; reflexivity).
  rewrite forallb_forall in A. specialize (A n (upTo100_spec n Hn)).
  apply negb_true_iff, String.eqb_neq in A. apply A.
  assert (S : sampleOf (fst (runState (GET sampleHost emptyEnv scenarioNetwork 0 scenarioRequest)
                               freshWorld))
              = Some (narrative ++ JsString.LF ++ JsString.LF ++ marineLinePrefix ++ "n/a"))
    by (vm_compute; reflexivity).
  rewrite S in E. now inversion E.
Qed.

(** C8 as the code has it.  For the narrative "Headline", line feed, "Body"
    and the snapshot {hs: 1.2, windKt: 15.4}, the text is the narrative, an
    empty line and "[Marine Snapshot] Hs 1.20 m · Wind 15.40 kt · IOI n/a":
    the route prints the snapshot's own [ioi] field and computes none.
    When the snapshot also carries an integer index n of 0..100, the line
    ends with "IOI n". *)
Theorem composeSample_scenario (host : Host) :
  composeSample host narrative scenarioSnapshot
  = "Headline" ++ JsString.LF ++ "Body" ++ JsString.LF ++ JsString.LF
    ++ "[Marine Snapshot] Hs 1.20 m · Wind 15.40 kt · IOI n/a"
  /\ (forall n : N, (n <= 100)%N ->
      composeSample host narrative (indexedSnapshot n)
      = "Headline" ++ JsString.LF ++ "Body" ++ JsString.LF ++ JsString.LF
        ++ "[Marine Snapshot] Hs 1.20 m · Wind 15.40 kt · IOI " ++ JsString.decimal n).
Proof.
  split; [vm_compute; reflexivity|].
  intros n Hn.
  assert (A : forallb
                (fun k =>
                   String.eqb
                     (composeSample host narrative (indexedSnapshot k))
                     ("Headline" ++ JsString.LF ++ "Body" ++ JsString.LF ++ JsString.LF
                      ++ "[Marine Snapshot] Hs 1.20 m · Wind 15.40 kt · IOI "
                      ++ JsString.decimal k))
                upTo100 = true) by (vm_compute; reflexivity).
  rewrite forallb_forall in A. specialize (A n (upTo100_spec n Hn)).
  now apply String.eqb_eq in A.
Qed.

End ReportFacts.

(** ** The scheduler *)

Module SchedulerFacts.
Import Js Http Scheduler.

(** A response that indicates overall success: the status is a success
    status and the body's [ok] is truthy. *)
Definition overallSuccess (r : FetchResult) : bool :=
  match r with
  | Resolved response =>
      Http.ok response
      && match json response with
         | inl body => truthy (prop "ok" body)
         | inr _ => false
         end
  | Rejected _ => false
  end.

(** The machine after one tick. *)
Definition tick (env : SchedulerEnv) (fetch : Fetch) (now : Z) (slot : Slot) (m : Machine)
    : Machine :=
  snd (runState (triggerReport env fetch now slot) m).

Lemma slot_eqb_spec (a b : Slot) : slot_eqb a b = true <-> a = b.
Proof. destruct a, b; cbn; split; congruence. Qed.

Lemma recentlyRun_spec (now : Z) (last : option LockFile) (slot : Slot) :
  recentlyRun now last slot = true
  <-> exists l, last = Some l /\ Scheduler.slot l = slot
                /\ (now - timestamp l < 300000)%Z.
Proof.
  unfold recentlyRun. destruct last as [l|].
  - rewrite andb_true_iff, slot_eqb_spec, Z.ltb_lt. change (5 * 60 * 1000)%Z with 300000%Z.
    split.
    + intros [Hs Ht]. exists l. auto.
    + intros (l' & E & Hs & Ht). inversion E; subst. auto.
  - split; [discriminate | intros (l & E & _); discriminate].
Qed.

Lemma tick_skip env fetch now slot m :
  recentlyRun now (lockFile m) slot = true ->
  calls (tick env fetch now slot m) = calls m
  /\ lockFile (tick env fetch now slot m) = lockFile m.
Proof.
  intros H. unfold tick, triggerReport.
  cbn [bind Monad_state runState readLock get MonadState_state ret].
  rewrite H. split; reflexivity.
Qed.

Lemma tick_dispatch env fetch now slot m :
  recentlyRun now (lockFile m) slot = false ->
  calls (tick env fetch now slot m) = (calls m ++ [reportRequest env slot])%list
  /\ lockFile (tick env fetch now slot m)
     = if overallSuccess (fetch (calls m) (reportRequest env slot))
       then Some {| slot := slot; timestamp := now |}
       else lockFile m.
Proof.
  intros H. unfold tick, triggerReport.
  cbn [bind Monad_state runState readLock get MonadState_state ret].
  rewrite H. cbn.
  destruct (fetch (calls m) (reportRequest env slot)) as [response|e]; cbn;
    [|split; reflexivity].
  destruct (json response) as [body|e]; cbn; [|rewrite andb_false_r; split; reflexivity].
  destruct (Http.ok response); cbn; [|split; reflexivity].
  destruct (truthy (prop "ok" body)); cbn; split; reflexivity.
Qed.

(** Two ticks for the morning slot, one minute apart, on an empty lock
    file: after an answer {ok: true} the second tick sends nothing; after
    an answer {ok: false} it sends the request again. *)
Definition answering (ok : bool) : Fetch :=
  fun _ _ => Resolved {| status := 200; json := inl (JObj [("ok", JBool ok)]) |}.

Definition idle : Machine := {| lockFile := None; calls := []; console := [] |}.

Definition defaultEnv : SchedulerEnv := {| REPORT_ENDPOINT := None |}.

Example two_ticks :
  let after ok := tick defaultEnv (answering ok) 60000 am
                    (tick defaultEnv (answering ok) 0 am idle) in
  List.length (calls (after true)) = 1%nat
  /\ lockFile (after true) = Some {| slot := am; timestamp := 0 |}
  /\ List.length (calls (after false)) = 2%nat
  /\ lockFile (after false) = None.
Proof. cbv zeta. repeat split; vm_compute; reflexivity. Qed.


End SchedulerFacts.

(** * Further properties of the code *)

(** ** Binary64: the clamp *)

Module Binary64Facts.
Import JsNumber Ioi IoiFacts.

Lemma SFcompare_refl (x : spec_float) :
  x <> S754_nan -> SFcompare x x = Some Eq.
Proof.
  destruct x as [s|s| |s m e]; cbn; try congruence; intros _.
  - destruct s; reflexivity.
  - rewrite Z.compare_refl.
    change (Pos.compare_cont Eq m m) with (Pos.compare m m).
    rewrite Pos.compare_refl. destruct s; reflexivity.
Qed.

Lemma SFcompare_antisym (x y : spec_float) :
  SFcompare y x = option_map CompOpp (SFcompare x y).
Proof.
  destruct x as [s1|s1| |s1 m1 e1], y as [s2|s2| |s2 m2 e2]; cbn;
    try reflexivity; try (destruct s1; reflexivity); try (destruct s2; reflexivity);
    try (destruct s1, s2; reflexivity).
  rewrite (Z.compare_antisym e1 e2).
  change (Pos.compare_cont Eq m2 m1) with (Pos.compare m2 m1).
  change (Pos.compare_cont Eq m1 m2) with (Pos.compare m1 m2).
  rewrite (Pos.compare_antisym m1 m2).
  destruct s1, s2; try reflexivity;
    destruct (e1 ?= e2)%Z; cbn; try reflexivity;
    destruct (m1 ?= m2)%positive; reflexivity.
Qed.

Lemma is_nan_spec (x : float) :
  PrimFloat.is_nan x = false <-> Prim2SF x <> S754_nan.
Proof.
  unfold PrimFloat.is_nan. rewrite eqb_spec. unfold SFeqb. split.
  - intros H E. rewrite E in H. discriminate.
  - intros H. now rewrite (SFcompare_refl _ H).
Qed.

Lemma comparable (x y : float) :
  PrimFloat.is_nan x = false -> PrimFloat.is_nan y = false ->
  exists c, SFcompare (Prim2SF x) (Prim2SF y) = Some c.
Proof.
  rewrite !is_nan_spec. intros Hx Hy.
  destruct (Prim2SF x) as [s1|s1| |s1 m1 e1], (Prim2SF y) as [s2|s2| |s2 m2 e2];
    cbn; try congruence; eauto.
Qed.

Lemma ltb_leb (x y : float) : PrimFloat.ltb x y = true -> PrimFloat.leb x y = true.
Proof.
  rewrite ltb_spec, leb_spec. unfold SFltb, SFleb.
  destruct (SFcompare (Prim2SF x) (Prim2SF y)) as [[| |]|]; congruence.
Qed.

Lemma not_ltb_leb (x y : float) :
  PrimFloat.is_nan x = false -> PrimFloat.is_nan y = false ->
  PrimFloat.ltb x y = false -> PrimFloat.leb y x = true.
Proof.
  intros Hx Hy. destruct (comparable x y Hx Hy) as (c & E).
  rewrite ltb_spec, leb_spec. unfold SFltb, SFleb.
  rewrite (SFcompare_antisym (Prim2SF x) (Prim2SF y)), E.
  destruct c; cbn; congruence.
Qed.

Lemma leb_refl (x : float) : PrimFloat.is_nan x = false -> PrimFloat.leb x x = true.
Proof.
  rewrite is_nan_spec, leb_spec. intros H. unfold SFleb. now rewrite SFcompare_refl.
Qed.

(** [Math.min] and [Math.max] of numbers. *)
Lemma Math_min_cases (a b : float) :
  PrimFloat.is_nan a = false -> PrimFloat.is_nan b = false ->
  (Binary64.Math_min a b = a \/ Binary64.Math_min a b = b)
  /\ PrimFloat.leb (Binary64.Math_min a b) a = true
  /\ PrimFloat.leb (Binary64.Math_min a b) b = true.
Proof.
  intros Ha Hb. unfold Binary64.Math_min. rewrite Ha, Hb. cbn [orb].
  destruct (PrimFloat.ltb a b) eqn:E1.
  { split; [auto|]. split; [now apply leb_refl | now apply ltb_leb]. }
  destruct (PrimFloat.ltb b a) eqn:E2.
  { split; [auto|]. split; [now apply ltb_leb | now apply leb_refl]. }
  destruct (PrimFloat.get_sign a).
  - split; [auto|]. split; [now apply leb_refl | now apply not_ltb_leb].
  - split; [auto|]. split; [now apply not_ltb_leb | now apply leb_refl].
Qed.

Lemma Math_max_cases (a b : float) :
  PrimFloat.is_nan a = false -> PrimFloat.is_nan b = false ->
  (Binary64.Math_max a b = a \/ Binary64.Math_max a b = b)
  /\ PrimFloat.leb a (Binary64.Math_max a b) = true
  /\ PrimFloat.leb b (Binary64.Math_max a b) = true.
Proof.
  intros Ha Hb. unfold Binary64.Math_max. rewrite Ha, Hb. cbn [orb].
  destruct (PrimFloat.ltb a b) eqn:E1.
  { split; [auto|]. split; [now apply ltb_leb | now apply leb_refl]. }
  destruct (PrimFloat.ltb b a) eqn:E2.
  { split; [auto|]. split; [now apply leb_refl | now apply ltb_leb]. }
  destruct (PrimFloat.get_sign a).
  - split; [auto|]. split; [now apply not_ltb_leb | now apply leb_refl].
  - split; [auto|]. split; [now apply leb_refl | now apply not_ltb_leb].
Qed.

Lemma Math_min_nan (a b : float) :
  PrimFloat.is_nan b = true -> Binary64.Math_min a b = PrimFloat.nan.
Proof. intros H. unfold Binary64.Math_min. rewrite H, orb_true_r. reflexivity. Qed.

Lemma Math_max_nan (a b : float) :
  PrimFloat.is_nan b = true -> Binary64.Math_max a b = PrimFloat.nan.
Proof. intros H. unfold Binary64.Math_max. rewrite H, orb_true_r. reflexivity. Qed.

(** X4.  In binary64, for every snapshot whatever its fields hold
    (infinities and NaN included), [computeIoiFromMarine] returns a value
    that is NaN or lies between 0 and 100: the final clamp lets nothing
    else through. *)
Theorem computeIoiFromMarine_binary64_clamped (snapshot : MarineSnapshot float) :
  exists r,
    computeIoiFromMarine snapshot = Some r
    /\ (PrimFloat.is_nan r = true
        \/ (le (lit 0) r = true /\ le r (lit 100) = true)).
Proof.
  rewrite computeIoiFromMarine_pieces. eexists. split; [reflexivity|].
  unfold scaled.
  set (ioi := Math_round _).
  change (PrimFloat.is_nan (Binary64.Math_max (lit 0) (Binary64.Math_min (lit 100) ioi)) = true
          \/ (PrimFloat.leb (lit 0) (Binary64.Math_max (lit 0) (Binary64.Math_min (lit 100) ioi)) = true
              /\ PrimFloat.leb (Binary64.Math_max (lit 0) (Binary64.Math_min (lit 100) ioi)) (lit 100) = true)).
  assert (N0 : PrimFloat.is_nan (lit 0) = false) by (vm_compute; reflexivity).
  assert (N100 : PrimFloat.is_nan (lit 100) = false) by (vm_compute; reflexivity).
  destruct (PrimFloat.is_nan ioi) eqn:Hn.
  { left. rewrite (Math_min_nan _ _ Hn). rewrite Math_max_nan; reflexivity. }
  right.
  destruct (Math_min_cases (lit 100) ioi N100 Hn) as (Hc & H100 & _).
  assert (Na : PrimFloat.is_nan (Binary64.Math_min (lit 100) ioi) = false)
    by (destruct Hc as [-> | ->]; assumption).
  destruct (Math_max_cases (lit 0) _ N0 Na) as (Hd & H0 & _).
  split; [exact H0|].
  destruct Hd as [-> | ->]; [vm_compute; reflexivity | exact H100].
Qed.
End Binary64Facts.

(** ** The notifier *)

Module NotifierCoverage.
Import Js Http Notifier NotifierFacts.

(** *** Bytes and strings *)

Definition isByte (n : N) : Prop := (n < 256)%N.

Lemma bytes_range (s : string) : Forall isByte (JsString.bytes s).
Proof.
  unfold JsString.bytes. induction s as [|a s IH]; cbn; constructor; [|exact IH].
  apply N_ascii_bounded.
Qed.

Lemma bytes_of_bytes (l : list N) :
  Forall isByte l -> JsString.bytes (JsString.of_bytes l) = l.
Proof.
  unfold JsString.bytes, JsString.of_bytes.
  rewrite list_ascii_of_string_of_list_ascii.
  induction 1 as [|n l Hn _ IH]; cbn; [reflexivity|].
  rewrite N_ascii_embedding by exact Hn. now rewrite IH.
Qed.

Lemma of_bytes_bytes (s : string) : JsString.of_bytes (JsString.bytes s) = s.
Proof.
  unfold JsString.bytes, JsString.of_bytes. rewrite map_map.
  rewrite (map_ext _ (fun a => a)) by apply ascii_N_embedding.
  rewrite map_id. apply string_of_list_ascii_of_string.
Qed.

(** *** [dropSpace] and [trim] *)

(** The number of bytes of the white-space character at the head of [l]
    (0 when there is none). *)
Definition headSpace (back : bool) (l : list N) : nat :=
  match l with
  | [] => 0
  | a :: l1 =>
      if JsString.ws1 a then 1
      else
        match l1 with
        | [] => 0
        | b :: l2 =>
            if (if back then JsString.ws2 b a else JsString.ws2 a b) then 2
            else
              match l2 with
              | [] => 0
              | c :: _ =>
                  if (if back then JsString.ws3 c b a else JsString.ws3 a b c) then 3 else 0
              end
        end
  end.

Lemma dropSpace_eq (back : bool) (l : list N) :
  JsString.dropSpace back l
  = match headSpace back l with
    | O => l
    | S k => JsString.dropSpace back (skipn (S k) l)
    end.
Proof.
  destruct l as [|a [|b [|c l3]]]; cbn [headSpace]; try reflexivity.
  - cbn. destruct (JsString.ws1 a); reflexivity.
  - cbn [JsString.dropSpace]. destruct (JsString.ws1 a); [reflexivity|].
    destruct (if back then JsString.ws2 b a else JsString.ws2 a b); reflexivity.
  - cbn [JsString.dropSpace]. destruct (JsString.ws1 a); [reflexivity|].
    destruct (if back then JsString.ws2 b a else JsString.ws2 a b); [reflexivity|].
    destruct (if back then JsString.ws3 c b a else JsString.ws3 a b c); reflexivity.
Qed.

Lemma headSpace_le (back : bool) (l : list N) : (headSpace back l <= List.length l)%nat.
Proof.
  destruct l as [|a [|b [|c l3]]]; cbn; try lia.
  - destruct (JsString.ws1 a); lia.
  - destruct (JsString.ws1 a); [lia|].
    destruct (if back then JsString.ws2 b a else JsString.ws2 a b); lia.
  - destruct (JsString.ws1 a); [lia|].
    destruct (if back then JsString.ws2 b a else JsString.ws2 a b); [lia|].
    destruct (if back then JsString.ws3 c b a else JsString.ws3 a b c); lia.
Qed.

Lemma dropSpace_suffix (back : bool) (l : list N) :
  exists p, l = (p ++ JsString.dropSpace back l)%list.
Proof.
  remember (List.length l) as n eqn:Hn. revert l Hn.
  induction n as [n IH] using lt_wf_ind. intros l Hn.
  rewrite dropSpace_eq. pose proof (headSpace_le back l) as Hle.
  destruct (headSpace back l) as [|k]; [exists []; reflexivity|].
  destruct (IH (List.length (skipn (S k) l))
              ltac:(rewrite length_skipn; lia) (skipn (S k) l) eq_refl) as (p & E).
  exists (firstn (S k) l ++ p)%list.
  rewrite <- app_assoc, <- E. symmetry. apply firstn_skipn.
Qed.

Lemma dropSpace_length (back : bool) (l : list N) :
  (List.length (JsString.dropSpace back l) <= List.length l)%nat.
Proof.
  destruct (dropSpace_suffix back l) as (p & E).
  rewrite E at 2. rewrite length_app. lia.
Qed.

Lemma dropSpace_idem (back : bool) (l : list N) :
  JsString.dropSpace back (JsString.dropSpace back l) = JsString.dropSpace back l.
Proof.
  remember (List.length l) as n eqn:Hn. revert l Hn.
  induction n as [n IH] using lt_wf_ind. intros l Hn.
  pose proof (headSpace_le back l) as Hle.
  rewrite (dropSpace_eq back l).
  destruct (headSpace back l) as [|k] eqn:E.
  - rewrite dropSpace_eq, E. reflexivity.
  - apply (IH (List.length (skipn (S k) l)) ltac:(rewrite length_skipn; lia) _ eq_refl).
Qed.

(** A list is left alone exactly when no white space stands at its head. *)
Lemma dropSpace_fixed (back : bool) (l : list N) :
  JsString.dropSpace back l = l <-> headSpace back l = 0%nat.
Proof.
  split.
  - intros H. pose proof (headSpace_le back l) as Hle.
    rewrite dropSpace_eq in H. destruct (headSpace back l) as [|k]; [reflexivity|].
    pose proof (dropSpace_length back (skipn (S k) l)) as L.
    rewrite H, length_skipn in L. lia.
  - intros H. now rewrite dropSpace_eq, H.
Qed.

Lemma headSpace_prefix (p q : list N) :
  headSpace false (p ++ q) = 0%nat -> headSpace false p = 0%nat.
Proof.
  destruct p as [|a [|b [|c p3]]]; cbn; try reflexivity.
  - destruct (JsString.ws1 a); [|reflexivity]. destruct q; discriminate.
  - destruct (JsString.ws1 a); [discriminate|].
    destruct (JsString.ws2 a b); [discriminate | reflexivity].
  - destruct (JsString.ws1 a); [discriminate|].
    destruct (JsString.ws2 a b); [discriminate|]. tauto.
Qed.

(** [trim] on the bytes. *)
Definition trimBytes (l : list N) : list N :=
  rev (JsString.dropSpace true (rev (JsString.dropSpace false l))).

Lemma trimBytes_idem (l : list N) : trimBytes (trimBytes l) = trimBytes l.
Proof.
  unfold trimBytes.
  set (A := JsString.dropSpace false l).
  set (B := JsString.dropSpace true (rev A)).
  destruct (dropSpace_suffix true (rev A)) as (p & E). fold B in E.
  assert (HA : A = (rev B ++ rev p)%list).
  { rewrite <- rev_app_distr, <- E. symmetry. apply rev_involutive. }
  assert (F : JsString.dropSpace false (rev B) = rev B).
  { apply dropSpace_fixed. apply headSpace_prefix with (q := rev p).
    rewrite <- HA. apply dropSpace_fixed. apply dropSpace_idem. }
  rewrite F, rev_involutive. unfold B. now rewrite dropSpace_idem.
Qed.

Lemma trimBytes_range (l : list N) : Forall isByte l -> Forall isByte (trimBytes l).
Proof.
  intros H. unfold trimBytes.
  destruct (dropSpace_suffix false l) as (p & E).
  destruct (dropSpace_suffix true (rev (JsString.dropSpace false l))) as (q & E').
  rewrite E in H. apply Forall_app in H. destruct H as [_ H].
  apply Forall_rev in H. rewrite E' in H. apply Forall_app in H. destruct H as [_ H].
  now apply Forall_rev.
Qed.

(** Trimming twice is trimming once. *)
Lemma trim_idem (s : string) : JsString.trim (JsString.trim s) = JsString.trim s.
Proof.
  change (JsString.trim s) with (JsString.of_bytes (trimBytes (JsString.bytes s))).
  change (JsString.trim (JsString.of_bytes (trimBytes (JsString.bytes s))))
    with (JsString.of_bytes
            (trimBytes (JsString.bytes (JsString.of_bytes (trimBytes (JsString.bytes s)))))).
  rewrite bytes_of_bytes by (apply trimBytes_range, bytes_range).
  now rewrite trimBytes_idem.
Qed.

(** *** [normaliseRecipients] *)

Lemma normalise_idem_list (l : list string) :
  filter nonEmpty (map JsString.trim (filter nonEmpty (map JsString.trim l)))
  = filter nonEmpty (map JsString.trim l).
Proof.
  induction l as [|e l IH]; cbn; [reflexivity|].
  destruct (nonEmpty (JsString.trim e)) eqn:E; cbn; [|exact IH].
  rewrite trim_idem, E. now rewrite IH.
Qed.

(** X7.  What [normaliseRecipients] returns is in normal form: normalising
    it again changes nothing, no entry is empty and none has white space
    around it.  A comma-separated string gives what the list of its pieces
    gives, and the result is never longer than the input. *)
Theorem normaliseRecipients_normal_form (recipients : option Recipients) :
  let result := normaliseRecipients recipients in
  normaliseRecipients (Some (AsList result)) = result
  /\ Forall (fun r => r <> "" /\ JsString.trim r = r) result
  /\ (forall s, recipients = Some (AsString s) ->
        result = normaliseRecipients (Some (AsList (JsString.split_comma s))))
  /\ (List.length result
      <= match recipients with
         | None => 0
         | Some (AsList l) => List.length l
         | Some (AsString s) => List.length (JsString.split_comma s)
         end)%nat.
Proof.
  cbv zeta.
  assert (T : forall l, Forall (fun r => r <> "" /\ JsString.trim r = r)
                          (filter nonEmpty (map JsString.trim l))).
  { intros l. apply Forall_forall. intros r Hr.
    apply filter_In in Hr. destruct Hr as [Hr Hn]. apply in_map_iff in Hr.
    destruct Hr as (e & <- & _). split; [|apply trim_idem].
    intros E. rewrite E in Hn. discriminate. }
  assert (L : forall l, (List.length (filter nonEmpty (map JsString.trim l)) <= List.length l)%nat).
  { intros l. rewrite <- (length_map JsString.trim l). apply filter_length_le. }
  destruct recipients as [[l|s]|]; cbn [normaliseRecipients].
  - split; [apply normalise_idem_list|]. split; [apply T|]. split; [discriminate | apply L].
  - destruct s as [|a s]; cbn [JsString.truthy].
    + split; [reflexivity|]. split; [constructor|]. split; [|cbn; lia].
      intros s E. inversion E; subst. reflexivity.
    + split; [apply normalise_idem_list|]. split; [apply T|]. split; [|apply L].
      intros s' E. inversion E; subst. reflexivity.
  - split; [reflexivity|]. split; [constructor|]. split; [discriminate | cbn; lia].
Qed.

(** *** What [sendEmail] sends and how it reads the answer *)

(** X8.  When recipients, key and sender are all there, [sendEmail] sends
    one POST to the Resend address with the key as bearer token and a body
    of sender, normalised recipients, subject and text.  The result is ok
    exactly on a status of 200..299; another status gives "Resend responded
    <status>", a thrown [Error] its message and any other thrown value
    "Resend request failed". *)
Theorem sendEmail_delivery env fetch options log (key sender : string) :
  resolvedRecipients env options <> [] ->
  nullish (apiKey options) (RESEND_API_KEY env) = Some key -> key <> "" ->
  nullish (from options) (REPORT_SENDER env) = Some sender -> sender <> "" ->
  let outcome := runState (sendEmail env fetch options) log in
  exists req,
    snd outcome = (log ++ [req])%list
    /\ url req = "https://api.resend.com/emails"
    /\ method req = "POST"
    /\ In ("Authorization", "Bearer " ++ key) (headers req)
    /\ body req = JObj [("from", JStr sender);
                        ("to", JArr (map JStr (resolvedRecipients env options)));
                        ("subject", JStr (subject options));
                        ("text", JStr (text options))]
    /\ (let answer := nullishOr (emailFetchImpl options) fetch log req in
        (ok (fst outcome) = true
         <-> exists response,
               answer = Resolved response /\ (200 <= status response <= 299)%N)
        /\ (forall response, answer = Resolved response ->
              (200 <= status response <= 299)%N -> fst outcome = success email)
        /\ (forall response, answer = Resolved response ->
              ~ (200 <= status response <= 299)%N ->
              fst outcome
              = failure email ("Resend responded " ++ JsString.decimal (status response)))
        /\ (forall m, answer = Rejected (ThrownError m) -> fst outcome = failure email m)
        /\ (answer = Rejected ThrownOther ->
            fst outcome = failure email "Resend request failed")).
Proof.
  intros Hr Hk Nk Hs Ns. cbv zeta.
  assert (Tk : JsString.truthy key = true) by (destruct key; [congruence | reflexivity]).
  assert (Ts : JsString.truthy sender = true) by (destruct sender; [congruence | reflexivity]).
  rewrite (sendEmail_posts env fetch options log key sender Hr Hk Tk Hs Ts).
  eexists. cbn [fst snd]. split; [reflexivity|].
  split; [reflexivity|]. split; [reflexivity|].
  split; [cbn; auto|]. split; [reflexivity|].
  split; [apply mapped_ok|].
  split.
  { intros response -> R. apply ok_range in R. cbn. now rewrite R. }
  split.
  { intros response -> R. cbn. destruct (Http.ok response) eqn:E; [|reflexivity].
    apply ok_range in E. contradiction. }
  split; [intros m ->; reflexivity | intros ->; reflexivity].
Qed.

Definition fullEnv : ProcessEnv :=
  {| SLACK_WEBHOOK_URL := Some "https://hooks.slack.com/services/test";
     RESEND_API_KEY := Some "key";
     REPORT_SENDER := Some "no-reply@example.com";
     REPORT_RECIPIENTS := Some "ops@example.com, duty@example.com";
     REPORT_TIMEZONE := None |}.

Definition plainEmail : EmailOptions :=
  {| subject := "Subject"; text := "Body"; to := None; from := None; apiKey := None;
     emailFetchImpl := None |}.

Definition status401 : Fetch :=
  fun _ _ => Resolved {| status := 401; json := inl (JStr "boom") |}.

Lemma sendEmail_delivery_witness :
  exists req,
    snd (runState (sendEmail fullEnv status401 plainEmail) []) = [req]
    /\ body req = JObj [("from", JStr "no-reply@example.com");
                        ("to", JArr [JStr "ops@example.com"; JStr "duty@example.com"]);
                        ("subject", JStr "Subject");
                        ("text", JStr "Body")].
Proof.
  destruct (sendEmail_delivery fullEnv status401 plainEmail [] "key" "no-reply@example.com")
    as (req & L & _ & _ & _ & B & _);
    [vm_compute; discriminate | reflexivity | discriminate | reflexivity | discriminate |].
  exists req. split; [exact L | exact B].
Defined.

(** *** Each sender reads its own configuration only *)

Definition stateless (f : Fetch) : Prop :=
  forall (log log' : list Request) (req : Request), f log req = f log' req.

(** X9.  Against a network whose answers do not depend on earlier
    requests, the result of [sendSlack] depends on the environment through
    SLACK_WEBHOOK_URL only, and the result of [sendEmail] through
    RESEND_API_KEY, REPORT_SENDER and REPORT_RECIPIENTS only; neither
    depends on what was sent before. *)
Theorem senders_independent env env' fetch (slackOptions : SlackOptions)
    (emailOptions : EmailOptions) (log log' : list Request) :
  stateless (nullishOr (slackFetchImpl slackOptions) fetch) ->
  stateless (nullishOr (emailFetchImpl emailOptions) fetch) ->
  (SLACK_WEBHOOK_URL env = SLACK_WEBHOOK_URL env' ->
   fst (runState (sendSlack env fetch slackOptions) log)
   = fst (runState (sendSlack env' fetch slackOptions) log'))
  /\ (RESEND_API_KEY env = RESEND_API_KEY env' ->
      REPORT_SENDER env = REPORT_SENDER env' ->
      REPORT_RECIPIENTS env = REPORT_RECIPIENTS env' ->
      fst (runState (sendEmail env fetch emailOptions) log)
      = fst (runState (sendEmail env' fetch emailOptions) log')).
Proof.
  intros Fs Fe. split.
  - intros E.
    destruct (missing (nullish (webhookUrl slackOptions) (SLACK_WEBHOOK_URL env))) eqn:M.
    + rewrite sendSlack_unresolved by exact M.
      rewrite sendSlack_unresolved by (rewrite <- E; exact M). reflexivity.
    + apply present_spec in M. destruct M as (hook & H & T).
      rewrite (sendSlack_resolved env fetch slackOptions log hook H T).
      rewrite (sendSlack_resolved env' fetch slackOptions log' hook) by (rewrite <- ?E; assumption).
      cbn [fst]. now rewrite (Fs log log').
  - intros Ek Es Er.
    assert (R : resolvedRecipients env' emailOptions = resolvedRecipients env emailOptions).
    { unfold resolvedRecipients, recipientsArgument. now rewrite Er. }
    assert (K : resolvedKey env' emailOptions = resolvedKey env emailOptions).
    { unfold resolvedKey. now rewrite Ek. }
    assert (S : resolvedSender env' emailOptions = resolvedSender env emailOptions).
    { unfold resolvedSender. now rewrite Es. }
    destruct (resolvedRecipients env emailOptions) as [|r rs] eqn:HR.
    { rewrite !sendEmail_no_recipients by congruence. reflexivity. }
    assert (NR : resolvedRecipients env emailOptions <> []) by congruence.
    assert (NR' : resolvedRecipients env' emailOptions <> []) by congruence.
    destruct (missing (resolvedKey env emailOptions)) eqn:MK.
    { rewrite !sendEmail_no_key by congruence. reflexivity. }
    destruct (missing (resolvedSender env emailOptions)) eqn:MS.
    { rewrite !sendEmail_no_sender by congruence. reflexivity. }
    apply present_spec in MK, MS.
    destruct MK as (key & HK & TK), MS as (sender & HS & TS).
    rewrite (sendEmail_posts env fetch emailOptions log key sender NR HK TK HS TS).
    rewrite (sendEmail_posts env' fetch emailOptions log' key sender NR')
      by (rewrite ?K, ?S; assumption).
    cbn [fst]. rewrite R, HR. now rewrite (Fe log log').
Qed.

Lemma senders_independent_witness :
  fst (runState (sendEmail fullEnv status401 plainEmail) [])
  = fst (runState
           (sendEmail
              {| SLACK_WEBHOOK_URL := None;
                 RESEND_API_KEY := Some "key";
                 REPORT_SENDER := Some "no-reply@example.com";
                 REPORT_RECIPIENTS := Some "ops@example.com, duty@example.com";
                 REPORT_TIMEZONE := Some "Asia/Dubai" |}
              status401 plainEmail)
           [slackRequest "https://hooks.slack.com/services/test"
              {| message := "hi"; webhookUrl := None; slackFetchImpl := None |}]).
Proof.
  apply (senders_independent fullEnv _ status401
           {| message := "hi"; webhookUrl := None; slackFetchImpl := None |} plainEmail);
    try reflexivity; intros log log' req; reflexivity.
Defined.

End NotifierCoverage.

(** ** The report route *)

Module ReportCoverage.
Import Js Http Notifier Report NotifierFacts ReportFacts.

Lemma fetchJson_log fetch (u : URL) (log : list Request) :
  snd (runState (fetchJson fetch u) log) = (log ++ [getRequest u])%list.
Proof.
  unfold fetchJson. cbn. destruct (fetch log (getRequest u)) as [response|e]; cbn;
    [destruct (Http.ok response)|]; reflexivity.
Qed.

Lemma fetchBriefing_log host fetch now request vesselData (log : list Request) :
  snd (runState (fetchBriefing host fetch now request vesselData) log)
  = (log ++ [briefingRequest host now request vesselData])%list.
Proof.
  unfold fetchBriefing. cbn.
  destruct (fetch log (briefingRequest host now request vesselData)) as [response|e]; cbn;
    [|reflexivity].
  destruct (Http.ok response); cbn; [|reflexivity].
  destruct (json response); reflexivity.
Qed.

(** The requests of the marine step: none when the port cannot be encoded,
    else the one GET. *)
Definition marinePart (request : ReportRequest) (part : list Request) : Prop :=
  part = []
  \/ exists encoded,
       part = [getRequest (relativeUrl request "/api/marine" ("?port=" ++ encoded))].

Lemma fetchMarine_log host fetch request vesselData (log : list Request) :
  exists part,
    marinePart request part
    /\ snd (runState (fetchMarine host fetch request vesselData) log) = (log ++ part)%list.
Proof.
  unfold fetchMarine.
  destruct (encodeURIComponent host _) as [encoded|].
  - exists [getRequest (relativeUrl request "/api/marine" ("?port=" ++ encoded))].
    split; [right; eauto|].
    cbn [bind Monad_state runState].
    pose proof (fetchJson_log fetch (relativeUrl request "/api/marine" ("?port=" ++ encoded)) log) as L.
    destruct (runState (fetchJson fetch _) log) as [[j|e] log']; cbn in L |- *; exact L.
  - exists []. split; [left; reflexivity|]. cbn. now rewrite app_nil_r.
Qed.

Definition slackPart (options : SlackOptions) (part : list Request) : Prop :=
  part = [] \/ exists hook, part = [slackRequest hook options].

Definition emailPart (options : EmailOptions) (part : list Request) : Prop :=
  part = []
  \/ exists key sender recipients, part = [emailRequest key sender recipients options].

Lemma sendSlack_log env fetch options (log : list Request) :
  exists part,
    slackPart options part
    /\ snd (runState (sendSlack env fetch options) log) = (log ++ part)%list.
Proof.
  destruct (missing (nullish (webhookUrl options) (SLACK_WEBHOOK_URL env))) eqn:M.
  - exists []. split; [left; reflexivity|].
    rewrite sendSlack_unresolved by exact M. cbn. now rewrite app_nil_r.
  - apply present_spec in M. destruct M as (hook & H & T).
    exists [slackRequest hook options]. split; [right; eauto|].
    now rewrite (sendSlack_resolved env fetch options log hook H T).
Qed.

Lemma sendEmail_log env fetch options (log : list Request) :
  exists part,
    emailPart options part
    /\ snd (runState (sendEmail env fetch options) log) = (log ++ part)%list.
Proof.
  destruct (resolvedRecipients env options) as [|r rs] eqn:R.
  { exists []. split; [left; reflexivity|].
    rewrite sendEmail_no_recipients by exact R. cbn. now rewrite app_nil_r. }
  assert (NR : resolvedRecipients env options <> []) by congruence.
  destruct (missing (resolvedKey env options)) eqn:K.
  { exists []. split; [left; reflexivity|].
    rewrite sendEmail_no_key by assumption. cbn. now rewrite app_nil_r. }
  destruct (missing (resolvedSender env options)) eqn:S.
  { exists []. split; [left; reflexivity|].
    rewrite sendEmail_no_sender by assumption. cbn. now rewrite app_nil_r. }
  apply present_spec in K, S. destruct K as (key & K & TK), S as (sender & S & TS).
  eexists. split; [right; eauto|].
  now rewrite (sendEmail_posts env fetch options log key sender NR K TK S TS).
Qed.

(** The six ways a pass can end, each with the requests it has sent and
    what it has stored. *)
Inductive Ending (host : Host) (env : ProcessEnv) (now : Z) (request : ReportRequest)
    (w : World) (outcome : Outcome) (w' : World) : Prop :=
| VesselFailed :
    statusOf outcome = Some 502%N ->
    w' = {| calls := (calls w ++ [getRequest (relativeUrl request "/api/vessel" "")])%list;
            lastReport := lastReport w |} ->
    Ending host env now request w outcome w'
| SlotThrew (thrown : Exception) :
    outcome = Threw thrown ->
    normaliseSlot host (slotParam request) now (resolveTimezone env) = inr thrown ->
    w' = {| calls := (calls w ++ [getRequest (relativeUrl request "/api/vessel" "")])%list;
            lastReport := lastReport w |} ->
    Ending host env now request w outcome w'
| BriefingFailed (vesselData : Json) (marine : list Request) :
    statusOf outcome = Some 502%N ->
    marinePart request marine ->
    w' = {| calls := (calls w ++ [getRequest (relativeUrl request "/api/vessel" "")]
                        ++ marine ++ [briefingRequest host now request vesselData])%list;
            lastReport := lastReport w |} ->
    Ending host env now request w outcome w'
| BriefingNotText (vesselData : Json) (marine : list Request) :
    outcome = Threw TypeError ->
    marinePart request marine ->
    w' = {| calls := (calls w ++ [getRequest (relativeUrl request "/api/vessel" "")]
                        ++ marine ++ [briefingRequest host now request vesselData])%list;
            lastReport := lastReport w |} ->
    Ending host env now request w outcome w'
| NameThrew (vesselData : Json) (marine toSlack : list Request) (thrown : Exception)
    (sample : string) (slot : ReportSlot) :
    outcome = Threw thrown ->
    interpolate host (vesselNameOf vesselData) = inr thrown ->
    marinePart request marine ->
    slackPart (slackOptionsFor sample slot (resolveTimezone env)) toSlack ->
    w' = {| calls := (calls w ++ [getRequest (relativeUrl request "/api/vessel" "")]
                        ++ marine ++ [briefingRequest host now request vesselData]
                        ++ toSlack)%list;
            lastReport := lastReport w |} ->
    Ending host env now request w outcome w'
| Completed (vesselData snapshot : Json) (vesselName : string)
    (marine toSlack toEmail : list Request) (record : LastReportMeta) :
    outcome = Responded (reportOf host now vesselData snapshot (slot record)
                           (timezone record) (sample record) (sent record)) ->
    marinePart request marine ->
    slackPart (slackOptionsFor (sample record) (slot record) (timezone record)) toSlack ->
    emailPart (emailOptionsFor vesselName (sample record) (slot record)
                 (timezone record)) toEmail ->
    calls w' = (calls w ++ [getRequest (relativeUrl request "/api/vessel" "")]
                  ++ marine ++ [briefingRequest host now request vesselData]
                  ++ toSlack ++ toEmail)%list ->
    lastReport w' = Some record ->
    generatedAt record = toISOString host now ->
    timezone record = resolveTimezone env ->
    normaliseSlot host (slotParam request) now (resolveTimezone env) = inl (slot record) ->
    interpolate host (vesselNameOf vesselData) = inl vesselName ->
    Ending host env now request w outcome w'.

Lemma GET_run_cases host env fetch now request w :
  previewParam request = false ->
  Ending host env now request w
    (fst (runState (GET host env fetch now request) w))
    (snd (runState (GET host env fetch now request) w)).
Proof.
  intros Hp.
  pose proof (fetchJson_log fetch (relativeUrl request "/api/vessel" "") (calls w)) as L1.
  destruct (runState (fetchJson fetch (relativeUrl request "/api/vessel" "")) (calls w))
    as [[vesselData|e] log1] eqn:Hv; cbn [snd] in L1; subst log1.
  2:{ rewrite (GET_vessel_fails host env fetch now request w Hp e _ Hv).
      now apply VesselFailed. }
  destruct (normaliseSlot host (slotParam request) now (resolveTimezone env))
    as [slot|thrown] eqn:Hs.
  2:{ rewrite (GET_slot_throws host env fetch now request w Hp _ _ _ Hv Hs).
      now apply SlotThrew with (thrown := thrown). }
  destruct (fetchMarine_log host fetch request vesselData
              (calls w ++ [getRequest (relativeUrl request "/api/vessel" "")])%list)
    as (marine & Pm & L2).
  destruct (runState (fetchMarine host fetch request vesselData) _) as [snapshot log2] eqn:Hm.
  cbn [snd] in L2. subst log2.
  pose proof (fetchBriefing_log host fetch now request vesselData
                ((calls w ++ [getRequest (relativeUrl request "/api/vessel" "")]) ++ marine)%list)
    as L3.
  destruct (runState (fetchBriefing host fetch now request vesselData) _)
    as [[briefing|e] log3] eqn:Hb; cbn [snd] in L3; subst log3.
  2:{ rewrite (GET_briefing_fails host env fetch now request w Hp _ _ _ e _ _ _ Hv Hs Hm Hb).
      apply BriefingFailed with (vesselData := vesselData) (marine := marine);
        [reflexivity | exact Pm |].
      cbn [fst snd]. f_equal. now rewrite <- !app_assoc. }
  destruct (isString briefing) eqn:Ht.
  2:{ rewrite (GET_briefing_not_text host env fetch now request w Hp _ _ _ _ _ _ _
                 Hv Hs Hm Hb Ht).
      apply BriefingNotText with (vesselData := vesselData) (marine := marine);
        [reflexivity | exact Pm |].
      cbn [fst snd]. f_equal. now rewrite <- !app_assoc. }
  destruct briefing as [| | | |text| |]; try discriminate Ht.
  set (timezone := resolveTimezone env) in *.
  set (sample := composeSample host text snapshot) in *.
  destruct (sendSlack_log env fetch (slackOptionsFor sample slot timezone)
              (((calls w ++ [getRequest (relativeUrl request "/api/vessel" "")]) ++ marine)
                 ++ [briefingRequest host now request vesselData])%list)
    as (toSlack & Ps & Ls).
  destruct (interpolate host (vesselNameOf vesselData)) as [vesselName|thrown] eqn:Hn.
  2:{ pose proof (GET_name_throws host env fetch now request w Hp _ _ _ _ _ _ _ _
                    Hv Hs Hm Hb Hn) as E.
      cbv zeta in E. rewrite E. cbn [fst snd].
      apply NameThrew with (vesselData := vesselData) (marine := marine) (toSlack := toSlack)
                           (thrown := thrown) (sample := sample) (slot := slot);
        try reflexivity; try assumption.
      f_equal. fold timezone sample. rewrite Ls. now rewrite <- !app_assoc. }
  pose proof (GET_completes host env fetch now request w Hp _ _ _ _ _ _ _ _
                Hv Hs Hm Hb Hn) as E.
  cbv zeta in E. rewrite E. cbn [fst snd]. fold timezone sample.
  destruct (sendEmail_log env fetch (emailOptionsFor vesselName sample slot timezone)
              (snd (runState (sendSlack env fetch (slackOptionsFor sample slot timezone))
                      (((calls w ++ [getRequest (relativeUrl request "/api/vessel" "")])
                          ++ marine)
                         ++ [briefingRequest host now request vesselData])%list)))
    as (toEmail & Pe & Le).
  eapply Completed with (vesselData := vesselData) (snapshot := snapshot)
                        (vesselName := vesselName) (marine := marine)
                        (toSlack := toSlack) (toEmail := toEmail);
    cbn [calls lastReport]; try reflexivity;
    cbn [recordOf sample Report.sample Report.slot Report.timezone Report.sent];
    try assumption; try reflexivity.
  rewrite Le, Ls. now rewrite <- !app_assoc.
Qed.



(** Examples of the three throwing ends: a zone that the host does not
    know, with no slot given; a narrative that is a number; a vessel whose
    name is an object with a [toString] entry. *)
Definition strictHost : Host :=
  {| toISOString := toISOString sampleHost;
     localHour :=
       fun timezone _ => if String.eqb timezone "Asia/Dubai" then inl 6%Z else inr RangeError;
     encodeURIComponent := encodeURIComponent sampleHost;
     ToString := ToString sampleHost;
     numberToString := numberToString sampleHost |}.

Definition marsEnv : ProcessEnv :=
  {| SLACK_WEBHOOK_URL := None;
     RESEND_API_KEY := None;
     REPORT_SENDER := None;
     REPORT_RECIPIENTS := None;
     REPORT_TIMEZONE := Some "Mars/Olympus" |}.

Definition hookEnv : ProcessEnv :=
  {| SLACK_WEBHOOK_URL := Some "https://hooks.example/T";
     RESEND_API_KEY := None;
     REPORT_SENDER := None;
     REPORT_RECIPIENTS := None;
     REPORT_TIMEZONE := None |}.

Definition oddName : Json := JObj [("toString", JNum (Binary64.of_Z 1))].

Definition oddNameNetwork : Fetch :=
  fun log req =>
    if String.eqb (url req) "http://localhost/api/vessel"
    then respond (JObj [("vessel", JObj [("name", oddName)])])
    else if String.eqb (url req) "https://hooks.example/T"
    then respond JNull
    else scenarioNetwork log req.

Example GET_unknown_zone :
  runState (GET strictHost marsEnv scenarioNetwork 0 scenarioRequest) freshWorld
  = (Threw RangeError, {| calls := [scenarioVesselRequest]; lastReport := None |}).
Proof. vm_compute. reflexivity. Qed.

Example GET_unknown_zone_explicit_slot :
  statusOf (fst (runState (GET strictHost marsEnv scenarioNetwork 0
                             {| requestOrigin := "http://localhost";
                                previewParam := false;
                                slotParam := Some "pm" |}) freshWorld))
  = Some 200%N.
Proof. vm_compute. reflexivity. Qed.

Example GET_odd_name :
  let run := runState (GET strictHost hookEnv oddNameNetwork 0 scenarioRequest) freshWorld in
  fst run = Threw TypeError
  /\ map url (calls (snd run))
     = ["http://localhost/api/vessel"; "http://localhost/api/marine?port=Jebel Ali";
        "http://localhost/api/briefing"; "https://hooks.example/T"]
  /\ lastReport (snd run) = None.
Proof. vm_compute. repeat split; reflexivity. Qed.

(** A pass that does not answer 200 stores nothing. *)
Lemma GET_failure_keeps_record host env fetch now request w :
  previewParam request = false ->
  statusOf (fst (runState (GET host env fetch now request) w)) <> Some 200%N ->
  lastReport (snd (runState (GET host env fetch now request) w)) = lastReport w.
Proof.
  intros Hp Hn.
  destruct (GET_run_cases host env fetch now request w Hp)
    as [_ E | thrown _ _ E | vd marine _ _ E | vd marine _ _ E
        | vd marine toSlack thrown sample slot _ _ _ _ E
        | vd snapshot name marine toSlack toEmail record H200].
  1-5: now rewrite E.
  rewrite H200 in Hn. now elim Hn.
Qed.

(** What a preview answers from a given store. *)
Definition previewOf (env : ProcessEnv) (last : option LastReportMeta) : HttpResponse :=
  {| responseStatus := 200;
     responseBody :=
       match last with
       | Some record =>
           Preview (anyOk (sent record)) (Some (generatedAt record)) (Some (slot record))
             (resolveTimezone env) (Some (sample record)) (sent record)
       | None => Preview false None None (resolveTimezone env) None []
       end |}.

(** X11.  A preview sends nothing and changes nothing: it answers 200 with
    the fields of the stored record, or with [ok] false, nulls and an empty
    [sent] when there is none.  After a pass that did not answer 200, be it
    with 502 or by throwing, it answers what it would have answered before
    that pass. *)
Theorem GET_preview_reads_only host env fetch now request w :
  previewParam request = true ->
  runState (GET host env fetch now request) w = (Responded (previewOf env (lastReport w)), w)
  /\ (forall fetch' now' request',
        previewParam request' = false ->
        let failed := runState (GET host env fetch' now' request') w in
        statusOf (fst failed) <> Some 200%N ->
        fst (runState (GET host env fetch now request) (snd failed))
        = Responded (previewOf env (lastReport w))).
Proof.
  intros Hp.
  assert (P : forall w0, runState (GET host env fetch now request) w0
                         = (Responded (previewOf env (lastReport w0)), w0)).
  { intros w0. rewrite (GET_preview host env fetch now request w0 Hp).
    unfold previewOf. destruct (lastReport w0); reflexivity. }
  split; [apply P|].
  intros fetch' now' request' Hp' failed Hn. rewrite P. cbn [fst].
  unfold failed. now rewrite (GET_failure_keeps_record host env fetch' now' request' w Hp' Hn).
Qed.

Definition previewRequest : ReportRequest :=
  {| requestOrigin := "http://localhost"; previewParam := true; slotParam := None |}.

Definition downNetwork : Fetch := fun _ _ => Resolved {| status := 500; json := inl JNull |}.

Lemma GET_preview_reads_only_witness :
  runState (GET sampleHost emptyEnv downNetwork 0 previewRequest) freshWorld
  = (Responded (previewOf emptyEnv None), freshWorld)
  /\ fst (runState (GET sampleHost emptyEnv downNetwork 0 previewRequest)
            (snd (runState (GET sampleHost emptyEnv downNetwork 0 scenarioRequest) freshWorld)))
     = Responded (previewOf emptyEnv None)
  /\ fst (runState (GET sampleHost emptyEnv downNetwork 0 previewRequest)
            (snd (runState (GET sampleHost emptyEnv numericBriefingNetwork 0 scenarioRequest)
                    freshWorld)))
     = Responded (previewOf emptyEnv None).
Proof.
  destruct (GET_preview_reads_only sampleHost emptyEnv downNetwork 0%Z previewRequest
              freshWorld eq_refl) as [A B].
  split; [exact A|]. split.
  - apply (B downNetwork 0%Z scenarioRequest eq_refl). vm_compute. discriminate.
  - apply (B numericBriefingNetwork 0%Z scenarioRequest eq_refl). vm_compute. discriminate.
Defined.

(** *** Slots *)

(** The host with another clock-to-hour function. *)
Definition withLocalHour (host : Host) (hour : string -> Z -> Z + Exception) : Host :=
  {| toISOString := toISOString host;
     localHour := hour;
     encodeURIComponent := encodeURIComponent host;
     ToString := ToString host;
     numberToString := numberToString host |}.

(** The request with another [slot] parameter. *)
Definition withSlot (request : ReportRequest) (slotParam : option string) : ReportRequest :=
  {| requestOrigin := requestOrigin request;
     previewParam := previewParam request;
     slotParam := slotParam |}.

Lemma normaliseSlot_other host (p : string) (now : Z) (timezone : string) :
  p <> "am" -> p <> "pm" ->
  normaliseSlot host (Some p) now timezone = normaliseSlot host None now timezone.
Proof.
  intros Na Np. unfold normaliseSlot.
  destruct (String.eqb_spec p "am") as [->|_]; [congruence|].
  destruct (String.eqb_spec p "pm") as [->|_]; [congruence | reflexivity].
Qed.

(** X12.  With [slot=am] or [slot=pm] the pass does not depend on the local
    hour: the formatter is never built, so the run is the same under a host
    with any other clock-to-hour function, and a time zone that the host
    does not know cannot make it throw where a known one would not.  Every
    other value of the parameter, whatever its case, counts as none: the
    run is the one of the request without it. *)
Theorem slot_resolution host env fetch now request w
    (hour : string -> Z -> Z + Exception) (p : string) :
  (slotParam request = Some "am" \/ slotParam request = Some "pm" ->
   runState (GET (withLocalHour host hour) env fetch now request) w
   = runState (GET host env fetch now request) w)
  /\ (p <> "am" -> p <> "pm" ->
      runState (GET host env fetch now (withSlot request (Some p))) w
      = runState (GET host env fetch now (withSlot request None)) w).
Proof.
  split.
  - intros [H | H]; unfold GET; rewrite H; reflexivity.
  - intros Na Np. unfold GET. cbn [slotParam previewParam withSlot].
    rewrite (normaliseSlot_other host p now (resolveTimezone env) Na Np). reflexivity.
Qed.

Lemma slot_resolution_witness :
  runState (GET strictHost marsEnv scenarioNetwork 0 (withSlot scenarioRequest (Some "pm")))
    freshWorld
  = runState (GET sampleHost marsEnv scenarioNetwork 0 (withSlot scenarioRequest (Some "pm")))
      freshWorld
  /\ runState (GET strictHost marsEnv scenarioNetwork 0 (withSlot scenarioRequest (Some "PM")))
       freshWorld
     = (Threw RangeError, {| calls := [scenarioVesselRequest]; lastReport := None |}).
Proof.
  destruct (slot_resolution sampleHost marsEnv scenarioNetwork 0%Z
              (withSlot scenarioRequest (Some "pm")) freshWorld (localHour strictHost) "PM")
    as [A _].
  destruct (slot_resolution strictHost marsEnv scenarioNetwork 0%Z
              scenarioRequest freshWorld (localHour strictHost) "PM")
    as [_ B].
  split.
  - exact (A (or_intror eq_refl)).
  - rewrite B; [vm_compute; reflexivity | discriminate | discriminate].
Defined.

(** *** The schedule's size *)

(** [scheduleSize] is the [length] of whatever the vessel data holds as
    [schedule]: the number of elements of an array, the number of UTF-16
    code units of a string (two for a character beyond U+FFFF), and 0 when
    there is none. *)
Example scheduleSize_examples :
  Js.length (JArr [JNull; JStr "70th"]) = count 2
  /\ Js.length (JStr "") = count 0
  /\ Js.length (JStr "AGI → DAS") = count 9
  /\ Js.length (JStr "😀") = count 2
  /\ orElse (Js.length (prop "schedule" (JObj [("vessel", JNull)]))) (JNum PrimFloat.zero)
     = JNum PrimFloat.zero.
Proof. repeat split; reflexivity. Qed.

(** *** The text *)

Definition finiteNumber (j : Json) : bool :=
  match j with
  | JNum x => Binary64.isFinite x
  | _ => false
  end.

(** X13.  The text of a pass is the trimmed narrative, an empty line and a
    line that starts with "[Marine Snapshot] ".  A snapshot that is falsy
    gives the placeholder; otherwise each of wave height, wind and index
    that is not a finite number is printed as "n/a". *)
Theorem composeSample_shape host (briefing : string) (snapshot : Json) :
  exists line,
    composeSample host briefing snapshot
    = JsString.trim briefing ++ JsString.LF ++ JsString.LF ++ "[Marine Snapshot] " ++ line
    /\ (truthy snapshot = false -> line = "데이터 없음")
    /\ (truthy snapshot = true ->
        exists hs wind ioi,
          line = "Hs " ++ hs ++ " · Wind " ++ wind ++ " · IOI " ++ ioi
          /\ (finiteNumber (prop "hs" snapshot) = false -> hs = "n/a m")
          /\ (finiteNumber (prop "windKt" snapshot) = false -> wind = "n/a kt")
          /\ (finiteNumber (prop "ioi" snapshot) = false -> ioi = "n/a")).
Proof.
  unfold composeSample, buildMarineLine. cbn [JsString.join].
  destruct (truthy snapshot) eqn:T; cbn [negb].
  - eexists. split; [reflexivity|]. split; [discriminate|]. intros _.
    eexists _, _, _. split; [reflexivity|].
    unfold formatMetric, finiteNumber. repeat split.
    + destruct (prop "hs" snapshot) as [| | |x| | |]; cbn; try reflexivity.
      intros ->. reflexivity.
    + destruct (prop "windKt" snapshot) as [| | |x| | |]; cbn; try reflexivity.
      intros ->. reflexivity.
    + destruct (prop "ioi" snapshot) as [| | |x| | |]; try reflexivity.
      intros ->. reflexivity.
  - eexists. split; [reflexivity|]. split; [reflexivity | discriminate].
Qed.

End ReportCoverage.

(** ** The scheduler over time *)

Module SchedulerCoverage.
Import Js Http Scheduler SchedulerFacts.

(** One firing of a cron job: the slot, the clock and the network's
    behaviour at that moment. *)
Record Firing := {
  firedSlot : Slot;
  firedAt : Z;
  network : Fetch
}.

(** The machine after a sequence of firings, first to last. *)
Fixpoint run (env : SchedulerEnv) (firings : list Firing) (m : Machine) : Machine :=
  match firings with
  | [] => m
  | f :: rest => run env rest (tick env (network f) (firedAt f) (firedSlot f) m)
  end.

Lemma tick_cases env fetch now slot m :
  (calls (tick env fetch now slot m) = calls m
   /\ lockFile (tick env fetch now slot m) = lockFile m)
  \/ (calls (tick env fetch now slot m) = (calls m ++ [reportRequest env slot])%list
      /\ (lockFile (tick env fetch now slot m) = lockFile m
          \/ lockFile (tick env fetch now slot m) = Some {| slot := slot; timestamp := now |})).
Proof.
  destruct (recentlyRun now (lockFile m) slot) eqn:R.
  - left. now apply tick_skip.
  - right. destruct (tick_dispatch env fetch now slot m R) as [C L].
    split; [exact C|]. rewrite L.
    destruct (overallSuccess _); auto.
Qed.

(** X14.  Over any sequence of firings: the request log only grows, by at
    most one request per firing, each the report request of a fired slot;
    and the lock file is what it was or holds the slot and time of one of
    the firings. *)
Theorem run_traffic_and_lock env (firings : list Firing) (m : Machine) :
  let m' := run env firings m in
  (exists sentNow,
      calls m' = (calls m ++ sentNow)%list
      /\ (List.length sentNow <= List.length firings)%nat
      /\ Forall (fun req => exists f, In f firings /\ req = reportRequest env (firedSlot f))
           sentNow)
  /\ (lockFile m' = lockFile m
      \/ exists f, In f firings
                   /\ lockFile m' = Some {| slot := firedSlot f; timestamp := firedAt f |}).
Proof.
  cbv zeta. revert m. induction firings as [|f rest IH]; intros m; cbn [run].
  - split; [|auto]. exists []. rewrite app_nil_r. repeat split; [cbn; lia | constructor].
  - destruct (IH (tick env (network f) (firedAt f) (firedSlot f) m))
      as ((sentNow & C & Len & All) & L).
    assert (All' : Forall (fun req => exists f0, In f0 (f :: rest)
                                                  /\ req = reportRequest env (firedSlot f0))
                     sentNow).
    { eapply Forall_impl; [|exact All]. intros req (f0 & I & E). exists f0. cbn. auto. }
    destruct (tick_cases env (network f) (firedAt f) (firedSlot f) m)
      as [[C0 L0] | [C0 L0]].
    + split.
      * exists sentNow. rewrite C, C0. repeat split; [cbn; lia | exact All'].
      * rewrite L0 in L. destruct L as [L | (f0 & I & L)]; [auto|].
        right. exists f0. cbn. auto.
    + split.
      * exists (reportRequest env (firedSlot f) :: sentNow).
        rewrite C, C0, <- app_assoc. repeat split; [cbn; lia|].
        constructor; [|exact All']. exists f. cbn. auto.
      * destruct L as [L | (f0 & I & L)].
        -- rewrite L. destruct L0 as [L0 | L0]; [auto|].
           right. exists f. cbn. auto.
        -- right. exists f0. cbn. auto.
Qed.

(** X15.  Firings of one slot, each less than five minutes after the
    time of a lock held for that slot, send nothing and leave the lock,
    however many they are. *)
Theorem run_within_window env (slot : Slot) (start : Z) (firings : list Firing) (m : Machine) :
  lockFile m = Some {| slot := slot; timestamp := start |} ->
  Forall (fun f => firedSlot f = slot /\ (firedAt f - start < 5 * 60 * 1000)%Z) firings ->
  calls (run env firings m) = calls m
  /\ lockFile (run env firings m) = lockFile m.
Proof.
  intros L All. revert m L. induction All as [|f rest [Hs Ht] _ IH]; intros m L; cbn [run].
  - auto.
  - assert (R : recentlyRun (firedAt f) (lockFile m) (firedSlot f) = true).
    { apply recentlyRun_spec. rewrite L. eexists. split; [reflexivity|].
      cbn. split; [now rewrite Hs | exact Ht]. }
    destruct (tick_skip env (network f) (firedAt f) (firedSlot f) m R) as [C0 L0].
    destruct (IH (tick env (network f) (firedAt f) (firedSlot f) m)) as [C1 L1];
      [now rewrite L0|].
    split; congruence.
Qed.

Definition stamp (slot : Slot) (at_ : Z) (ok : bool) : Firing :=
  {| firedSlot := slot; firedAt := at_; network := answering ok |}.

Lemma run_within_window_witness :
  calls (run defaultEnv [stamp am 1000 true; stamp am 299999 false]
           {| lockFile := Some {| slot := am; timestamp := 0 |}; calls := []; console := [] |})
  = [].
Proof.
  destruct (run_within_window defaultEnv am 0 [stamp am 1000 true; stamp am 299999 false]
              {| lockFile := Some {| slot := am; timestamp := 0 |}; calls := []; console := [] |})
    as [C _]; [reflexivity | repeat constructor | exact C].
Defined.



End SchedulerCoverage.

(** ** The stored record *)

Module ReportStore.
Import Js Http Notifier Report NotifierFacts ReportFacts.

(** The outcome of a pass that is not a preview, the requests it logs and
    the record it stores (none when it fails), from the request log
    alone. *)
Definition pass (host : Host) (env : ProcessEnv) (fetch : Fetch) (now : Z)
    (request : ReportRequest) (log : list Request)
    : Outcome * list Request * option LastReportMeta :=
  let run := runState (GET host env fetch now request)
               {| calls := log; lastReport := None |} in
  (fst run, calls (snd run), lastReport (snd run)).

Lemma GET_reads_log_only host env fetch now request (w : World) :
  previewParam request = false ->
  runState (GET host env fetch now request) w
  = (fst (fst (pass host env fetch now request (calls w))),
     {| calls := snd (fst (pass host env fetch now request (calls w)));
        lastReport :=
          match snd (pass host env fetch now request (calls w)) with
          | Some record => Some record
          | None => lastReport w
          end |}).
Proof.
  intros Hp. unfold pass, GET. cbv zeta. rewrite Hp.
  cbn [bind ret Monad_state runState liftNet calls lastReport NextResponse_json throw].
  destruct (runState (fetchJson fetch (relativeUrl request "/api/vessel" "")) (calls w))
    as [[vesselData|e] log1];
    cbn [bind ret Monad_state runState liftNet calls lastReport fst snd
         NextResponse_json throw];
    [|reflexivity].
  destruct (normaliseSlot host (slotParam request) now (resolveTimezone env))
    as [slot|thrown]; [|reflexivity].
  cbn [bind ret Monad_state runState liftNet calls lastReport fst snd
       NextResponse_json throw].
  destruct (runState (fetchMarine host fetch request vesselData) log1) as [snapshot log2].
  cbn [bind ret Monad_state runState liftNet calls lastReport fst snd
       NextResponse_json throw].
  destruct (runState (fetchBriefing host fetch now request vesselData) log2)
    as [[briefing|e] log3];
    cbn [bind ret Monad_state runState liftNet calls lastReport fst snd
         NextResponse_json throw];
    [|reflexivity].
  destruct briefing as [| | | |text| |]; try reflexivity.
  cbn [bind ret Monad_state runState liftNet calls lastReport fst snd
       NextResponse_json throw].
  destruct (runState (sendSlack env fetch _) log3) as [slackResult log4].
  cbn [bind ret Monad_state runState liftNet calls lastReport fst snd
       NextResponse_json throw].
  destruct (interpolate host _) as [vesselName|thrown]; [|reflexivity].
  cbn [bind ret Monad_state runState liftNet calls lastReport fst snd
       NextResponse_json throw].
  destruct (runState (sendEmail env fetch _) log4) as [emailResult log5].
  reflexivity.
Qed.

(** X17.  A pass that is not a preview reads the request log and never the
    stored record: from two states with the same log it ends the same way,
    with the same response or the same exception, and sends the same
    requests; when it answers 200 it stores the same record in both,
    whatever was stored before, and when it does not, each state keeps its
    own. *)
Theorem GET_replaces_record host env fetch now request (w1 w2 : World) :
  previewParam request = false ->
  calls w1 = calls w2 ->
  let run1 := runState (GET host env fetch now request) w1 in
  let run2 := runState (GET host env fetch now request) w2 in
  fst run1 = fst run2
  /\ calls (snd run1) = calls (snd run2)
  /\ (statusOf (fst run1) = Some 200%N ->
      lastReport (snd run1) = lastReport (snd run2)
      /\ exists record, lastReport (snd run1) = Some record)
  /\ (statusOf (fst run1) <> Some 200%N ->
      lastReport (snd run1) = lastReport w1 /\ lastReport (snd run2) = lastReport w2).
Proof.
  intros Hp Hc. cbv zeta.
  rewrite (GET_reads_log_only host env fetch now request w1 Hp).
  rewrite (GET_reads_log_only host env fetch now request w2 Hp).
  rewrite <- Hc. cbn [fst snd calls lastReport].
  split; [reflexivity|]. split; [reflexivity|].
  destruct (ReportCoverage.GET_run_cases host env fetch now request
              {| calls := calls w1; lastReport := None |} Hp)
    as [H502 E | thrown HT _ E | vd marine H502 _ E | vd marine HT _ E
        | vd marine toSlack thrown sample slot HT _ _ _ E
        | vd snapshot name marine toSlack toEmail record H200 _ _ _ _ L].
  - unfold pass. cbv zeta. cbn [fst snd]. rewrite H502, E. cbn [lastReport snd].
    split; [discriminate | auto].
  - unfold pass. cbv zeta. cbn [fst snd]. rewrite HT, E. cbn [lastReport snd statusOf].
    split; [discriminate | auto].
  - unfold pass. cbv zeta. cbn [fst snd]. rewrite H502, E. cbn [lastReport snd].
    split; [discriminate | auto].
  - unfold pass. cbv zeta. cbn [fst snd]. rewrite HT, E. cbn [lastReport snd statusOf].
    split; [discriminate | auto].
  - unfold pass. cbv zeta. cbn [fst snd]. rewrite HT, E. cbn [lastReport snd statusOf].
    split; [discriminate | auto].
  - unfold pass. cbv zeta. cbn [fst snd]. rewrite H200, L. cbn [statusOf reportOf responseStatus].
    split; [eauto | congruence].
Qed.

Lemma GET_replaces_record_witness :
  lastReport (snd (runState (GET sampleHost emptyEnv scenarioNetwork 0 scenarioRequest)
                     freshWorld))
  = lastReport
      (snd (runState (GET sampleHost emptyEnv scenarioNetwork 0 scenarioRequest)
              {| calls := [];
                 lastReport :=
                   Some {| slot := pm; generatedAt := "earlier"; timezone := "UTC";
                           sample := "old"; sent := [] |} |})).
Proof.
  destruct (GET_replaces_record sampleHost emptyEnv scenarioNetwork 0%Z scenarioRequest
              freshWorld
              {| calls := [];
                 lastReport :=
                   Some {| slot := pm; generatedAt := "earlier"; timezone := "UTC";
                           sample := "old"; sent := [] |} |} eq_refl eq_refl)
    as (_ & _ & H & _).
  exact (proj1 (H eq_refl)).
Defined.
End ReportStore.
